(** * graphql-reflect-go: schema generation and field resolution

    A shallow embedding of the reflective engine of the repository
    ([executeQuery], [getBasicOutput], [createGraphQlFieldHierarchy] with the
    [Resolve] closure it binds per field, [QueryStructViaGraphql], [Min])
    and of the two handlers of [main.go], followed by the properties of
    their behaviour.

    Conventions of the embedding.
    - A [reflect.Type] is a finite tree [rtype]; a struct type carries the
      list that [reflect.VisibleFields] returns for it. A record type that
      contains itself (type Node struct{ Children []Node }) is no finite
      tree and has no embedding: a record enters the cache only after its
      members are built, so that on such a type the build of the program
      recurses without end. What is proved of the build is proved of the
      types that are finite trees.
    - The two Go maps that [createGraphQlFieldHierarchy] mutates in place and
      hands down its recursion are the components [typesMap] and [filterMap]
      of an explicit build state; [graphql.NewObject] allocates in a store of
      objects, so that a schema object is a pointer with an identity.
    - A run-time panic is the result [Panic]; nothing is dropped silently.
    - A float64 is a [spec_float] of binary64 (precision 53, emax 1024) and
      the conversions [float64(x)] are IEEE roundings to nearest even.
    - A record value lists its exported members, and a collection value
      is a slice. What [reflect] allows on a value reached through an
      unexported member ([Int], but not [Interface]) is not modelled; on an
      array that is not addressable, as every array reached by
      [FieldByName] is, [Slice] panics.
    - A value is of a predeclared type or of a record type: a value of a
      defined type (type Color string), on which the [==] of two interface
      values and the type assertions of the filter answer no, has no
      counterpart here. The members of a record value are a flat list: the
      members that [reflect] promotes from an embedded record, which it
      looks up by depth, are not modelled.
    - [ToLower] folds the ASCII letters, where [strings.ToLower] folds the
      letters of Unicode. *)

From Stdlib Require Import ZArith Lia Bool Ascii String List Permutation.
From Stdlib Require Import SpecFloat.
From stdpp Require Import base option list strings gmap fin_maps.

Set Warnings "-register-all".

Local Open Scope string_scope.
Local Open Scope Z_scope.

(** ** Strings *)

(** [strings.ToLower] on the ASCII letters. *)
Definition lower_ascii (c : ascii) : ascii :=
  let n := nat_of_ascii c in
  if (Nat.leb 65 n && Nat.leb n 90)%bool then ascii_of_nat (n + 32)%nat else c.

Fixpoint ToLower (s : string) : string :=
  match s with
  | EmptyString => EmptyString
  | String c s' => String (lower_ascii c) (ToLower s')
  end.

(** ** Results of partial operations *)

Inductive result (A : Type) : Type :=
| Ok (a : A)
| Panic (msg : string).
Arguments Ok {A} a.
Arguments Panic {A} msg.

Definition rbind {A B} (m : result A) (f : A -> result B) : result B :=
  match m with
  | Ok a => f a
  | Panic msg => Panic msg
  end.

Notation "'let*' x ':=' m 'in' k" := (rbind m (fun x => k))
  (at level 10, x pattern, m at level 100, k at level 200).

(** ** The [reflect] package: kinds and types *)

Module reflect.

Inductive Kind : Set :=
| Invalid
| Bool | Int | Int8 | Int16 | Int32 | Int64
| Uint | Uint8 | Uint16 | Uint32 | Uint64 | Uintptr
| Float32 | Float64 | Complex64 | Complex128
| Array | Chan | Func | Interface | Map | Pointer | Slice
| String | Struct | UnsafePointer.

Definition Kind_eqb (a b : Kind) : bool :=
  match a, b with
  | Invalid, Invalid | Bool, Bool | Int, Int | Int8, Int8 | Int16, Int16
  | Int32, Int32 | Int64, Int64 | Uint, Uint | Uint8, Uint8
  | Uint16, Uint16 | Uint32, Uint32 | Uint64, Uint64 | Uintptr, Uintptr
  | Float32, Float32 | Float64, Float64 | Complex64, Complex64
  | Complex128, Complex128 | Array, Array | Chan, Chan | Func, Func
  | Interface, Interface | Map, Map | Pointer, Pointer | Slice, Slice
  | String, String | Struct, Struct | UnsafePointer, UnsafePointer => true
  | _, _ => false
  end.

(** The kinds of types without a structure this program looks into. *)
Definition plain (k : Kind) : bool :=
  match k with
  | Invalid | Array | Slice | Func | Struct => false
  | _ => true
  end.

(** A type. [TPlain] is a type of a plain kind ([Chan], [Map] and
    [Pointer] types have an element type, which the program never asks
    for); [TList] is a slice ([isArray = false]) or an array; [TFunc]
    carries the result types; [TStruct] carries its package path and the
    members in the order of [VisibleFields]. *)
Inductive rtype : Type :=
| TPlain (name : string) (k : Kind)
| TList (name : string) (isArray : bool) (elem : rtype)
| TFunc (name : string) (outs : list rtype)
| TStruct (pkg name : string) (fields : list (string * rtype)).

Definition Name (t : rtype) : string :=
  match t with
  | TPlain n _ | TList n _ _ | TFunc n _ | TStruct _ n _ => n
  end.

Definition KindOf (t : rtype) : Kind :=
  match t with
  | TPlain _ k => k
  | TList _ isArray _ => if isArray then Array else Slice
  | TFunc _ _ => Func
  | TStruct _ _ _ => Struct
  end.

Definition VisibleFields (t : rtype) : list (string * rtype) :=
  match t with
  | TStruct _ _ fields => fields
  | _ => []
  end.

End reflect.

(** [var typeTime = reflect.TypeOf(time.Time{})]: the struct [Time] of the
    package [time], with its three unexported members. *)
Definition typeTime : reflect.rtype :=
  reflect.TStruct "time" "Time"
    [("wall", reflect.TPlain "uint64" reflect.Uint64);
     ("ext", reflect.TPlain "int64" reflect.Int64);
     ("loc", reflect.TPlain "" reflect.Pointer)].

(** [t == typeTime]: two defined types are identical when their package
    path and name agree. *)
Definition is_typeTime (t : reflect.rtype) : bool :=
  match t with
  | reflect.TStruct pkg name _ => (String.eqb pkg "time" && String.eqb name "Time")%bool
  | _ => false
  end.

(** ** Machine integers and floating-point numbers *)

(** Two's complement wrap-around of Go's 64-bit [int] and [int64]. *)
Definition wrap64 (z : Z) : Z := (z + 2 ^ 63) mod 2 ^ 64 - 2 ^ 63.

(** [float64(z)] for an integer [z]: the binary64 number nearest to [z],
    ties to even. *)
Definition float64_of_Z (z : Z) : spec_float := binary_normalize 53 1024 z 0 false.

(** The float64 of a float32 ([reflect.Value.Float] on a [float32]): the
    same number, with the mantissa of binary64. *)
Definition float64_of_float32 (f : spec_float) : spec_float :=
  match f with
  | S754_finite s m e => binary_round 53 1024 s m e
  | _ => f
  end.

(** [f] is finite and its value is the integer [z]. *)
Definition SFexact (f : spec_float) (z : Z) : Prop :=
  match f with
  | S754_zero _ => z = 0
  | S754_finite s m e =>
      if 0 <=? e then z = cond_Zopp s (Z.pos m * 2 ^ e)
      else z * 2 ^ (- e) = cond_Zopp s (Z.pos m)
  | _ => False
  end.

(** ** Go values *)

Inductive IntType : Set := int | int8 | int16 | int32 | int64.
Inductive UintType : Set := uint | uint8 | uint16 | uint32 | uint64 | uintptr.

(** [time.Time]: seconds since the epoch, nanoseconds within the second,
    and the location. *)
Record Time := { unixSec : Z; nsec : Z; loc : string }.

(** [t.UnixMilli()], in int64 arithmetic. *)
Definition UnixMilli (t : Time) : Z :=
  wrap64 (wrap64 (unixSec t * 1000) + nsec t / 1000000).

Definition error : Set := string.

(** A Go value. A func value is nil or the identity of a function of the
    signature [func(T) (R, error)], as [Enemies] in [main.go]; a member of
    interface type holds nil or a value; [VOpaque] is a value of a kind
    the closure does not look into (a channel, a map, a pointer, a complex
    number), or an array, on which every path of the closure panics. *)
Inductive Value : Type :=
| VBool (b : bool)
| VInt (t : IntType) (z : Z)
| VUint (t : UintType) (z : Z)
| VFloat32 (f : spec_float)
| VFloat64 (f : spec_float)
| VString (s : string)
| VStruct (pkg name : string) (fields : list (string * Value))
| VTime (t : Time)
| VSlice (elems : list Value)
| VFunc (f : option nat)
| VIface (dyn : option Value)
| VOpaque (k : reflect.Kind).

(** [v.Kind()] of a [reflect.Value]; the zero Value is [None]. *)
Definition ValueKind (r : option Value) : reflect.Kind :=
  match r with
  | None => reflect.Invalid
  | Some (VBool _) => reflect.Bool
  | Some (VInt int _) => reflect.Int
  | Some (VInt int8 _) => reflect.Int8
  | Some (VInt int16 _) => reflect.Int16
  | Some (VInt int32 _) => reflect.Int32
  | Some (VInt int64 _) => reflect.Int64
  | Some (VUint uint _) => reflect.Uint
  | Some (VUint uint8 _) => reflect.Uint8
  | Some (VUint uint16 _) => reflect.Uint16
  | Some (VUint uint32 _) => reflect.Uint32
  | Some (VUint uint64 _) => reflect.Uint64
  | Some (VUint uintptr _) => reflect.Uintptr
  | Some (VFloat32 _) => reflect.Float32
  | Some (VFloat64 _) => reflect.Float64
  | Some (VString _) => reflect.String
  | Some (VStruct _ _ _) | Some (VTime _) => reflect.Struct
  | Some (VSlice _) => reflect.Slice
  | Some (VFunc _) => reflect.Func
  | Some (VIface _) => reflect.Interface
  | Some (VOpaque k) => k
  end.

(** [v.FieldByNameFunc(match)] on the members of a struct: the member whose
    name satisfies [match], found when exactly one does; the zero Value
    otherwise. It panics on a value that is not a struct. A [time.Time] has
    no exported member. *)
Definition FieldByNameFunc (v : option Value) (matchName : string -> bool)
  : result (option Value) :=
  match v with
  | Some (VStruct _ _ fields) =>
      match filter (fun f => matchName (fst f)) fields with
      | [f] => Ok (Some (snd f))
      | _ => Ok None
      end
  | Some (VTime _) => Ok None
  | _ => Panic "reflect: call of reflect.Value.FieldByNameFunc on non-struct Value"
  end.

Definition FieldByName (v : option Value) (name : string) : result (option Value) :=
  FieldByNameFunc v (String.eqb name).

(** [v.Interface()]: the value as an [any]; it panics on the zero Value. A
    member of interface type gives what it holds, which may be nil. *)
Definition Interface (v : option Value) : result (option Value) :=
  match v with
  | None => Panic "reflect: call of reflect.Value.Interface on zero Value"
  | Some (VIface dyn) => Ok dyn
  | Some x => Ok (Some x)
  end.

(** [v.Len()] and [v.Index(i)]: the elements of a slice. *)
Definition Elems (v : option Value) : result (list Value) :=
  match v with
  | Some (VSlice elems) => Ok elems
  | _ => Panic "reflect: call of reflect.Value.Len on a Value that is no slice"
  end.

(** [v.Slice(i, j)] on the elements of a slice whose capacity is its
    length. *)
Definition Slice (elems : list Value) (i j : Z) : result (list Value) :=
  if ((0 <=? i) && (i <=? j) && (j <=? Z.of_nat (length elems)))%bool
  then Ok (take (Z.to_nat (j - i)) (drop (Z.to_nat i) elems))
  else Panic "reflect.Value.Slice: slice index out of bounds".

(** ** Arguments of a field, as the query executor supplies them *)

(** A scalar argument value: [graphql.Int] arrives as an [int],
    [graphql.Float] as a [float64]. *)
Inductive ArgValue : Type :=
| AInt (z : Z)
| AFloat (f : spec_float)
| AString (s : string)
| ABool (b : bool).

(** An argument: a scalar, or an input object, a [map[string]interface{}];
    the order of the list is an order in which [range] visits the map. *)
Inductive Arg : Type :=
| AScalar (v : ArgValue)
| AObject (members : list (string * ArgValue)).

(** ** The [graphql] package: the types a schema is made of *)

Module graphql.

(** The predeclared scalars [graphql.String], [graphql.Int],
    [graphql.Float] and [graphql.Boolean]. *)
Inductive Scalar : Set := String | Int | Float | Boolean.

(** A non-nil [graphql.Output]: a scalar, the list built by
    [graphql.NewList] (over an element type that may be nil), or the
    pointer returned by [graphql.NewObject]. The nil [graphql.Output] is
    [None : option Output]. *)
Inductive Output : Type :=
| OScalar (s : Scalar)
| OList (ofType : option Output)
| OObject (ptr : nat).

(** The type of an argument: an output type used as an input (the scalars
    are both) or the value of [graphql.NewInputObject], with the name and
    the members of its configuration. *)
Inductive Input : Type :=
| InOutput (o : Output)
| InObject (name : string) (fields : gmap string Output).

Record ArgumentConfig := { ArgType : Input }.

(** The [Resolve] closure of a field. The closure of a record member has
    the same code for every member and captures the two variables copied
    before it is built; the closure of the root field captures the root
    value. *)
Inductive Resolver : Type :=
| MemberResolve (structFieldName : string) (structFieldTypeKind : reflect.Kind)
| RootResolve (o : option Value).

Record Field := {
  FieldName : string;
  FieldType : option Output;
  Args : gmap string ArgumentConfig;
  Resolve : Resolver
}.

(** [graphql.Fields], a Go map; the nil map reads as the empty one. *)
Abbreviation Fields := (gmap string Field).

Record ObjectConfig := { ObjName : string; ObjFields : Fields }.

(** [graphql.SchemaConfig]: the root object, with the store its pointers
    point into. *)
Record SchemaConfig := { Query : Output; Store : list ObjectConfig }.

(** [gqlerrors.FormattedError] and [graphql.Result] over a result tree of
    type [D]. *)
Record FormattedError := { Message : string; OriginalError : option error }.

Record Result (D : Type) := { Data : D; Errors : list FormattedError }.
Arguments Data {D} r.
Arguments Errors {D} r.

End graphql.

(** ** [getBasicOutput] *)

Definition getBasicOutput (t : reflect.rtype) : option graphql.Output :=
  match reflect.KindOf t with
  | reflect.String => Some (graphql.OScalar graphql.String)
  | reflect.Int | reflect.Uint
  | reflect.Int8 | reflect.Uint8
  | reflect.Int16 | reflect.Uint16
  | reflect.Int32 | reflect.Uint32 => Some (graphql.OScalar graphql.Float)
  | reflect.Int64 | reflect.Uint64 => Some (graphql.OScalar graphql.Float)
  | reflect.Bool => Some (graphql.OScalar graphql.Boolean)
  | reflect.Float32 | reflect.Float64 => Some (graphql.OScalar graphql.Float)
  | _ => None
  end.

(** ** The state of a schema build *)

(** [typesMap] and [filterMap] are the two maps of the source; [objects] is
    the store [graphql.NewObject] allocates in, in allocation order: the
    object of pointer [p] is [objects !! p]. *)
Record BuildState := {
  typesMap : gmap string (option graphql.Output * graphql.Fields);
  filterMap : gmap string graphql.ArgumentConfig;
  objects : list graphql.ObjectConfig
}.

(** The state [QueryStructViaGraphql] starts from: both maps are made
    afresh when the arguments are nil. *)
Definition emptyState : BuildState :=
  {| typesMap := ∅; filterMap := ∅; objects := [] |}.

Definition NewObject (cfg : graphql.ObjectConfig) (st : BuildState)
  : nat * BuildState :=
  (length (objects st),
   {| typesMap := typesMap st; filterMap := filterMap st;
      objects := objects st ++ [cfg] |}).

Definition setTypesMap (st : BuildState) (k : string)
    (v : option graphql.Output * graphql.Fields) : BuildState :=
  {| typesMap := <[k := v]> (typesMap st); filterMap := filterMap st;
     objects := objects st |}.

Definition withFilterMap (st : BuildState)
    (fm : gmap string graphql.ArgumentConfig) : BuildState :=
  {| typesMap := typesMap st; filterMap := fm; objects := objects st |}.

(** ** Argument synthesis (the body of the member loop before [Resolve]) *)

(** [t.Elem()] of a slice or array type. *)
Definition Elem (t : reflect.rtype) : result reflect.rtype :=
  match t with
  | reflect.TList _ _ elem => Ok elem
  | _ => Panic "reflect: Elem of invalid type"
  end.

(** "Register all filter arguments": one argument per entry of [subfields]
    whose type is one of the four scalars. *)
Definition subfieldArg (v : graphql.Field) : option graphql.ArgumentConfig :=
  match graphql.FieldType v with
  | Some (graphql.OScalar s) =>
      Some {| graphql.ArgType := graphql.InOutput (graphql.OScalar s) |}
  | _ => None
  end.

Definition subfieldArgs (subfields : graphql.Fields)
  : gmap string graphql.ArgumentConfig :=
  omap subfieldArg subfields.

(** The members of the filter shape: the loop over the visible members of
    the element type, in order. *)
Definition filterStep (fields : gmap string graphql.Output)
    (v : string * reflect.rtype) : gmap string graphql.Output :=
  match getBasicOutput (snd v) with
  | Some t => <[ToLower (fst v) := t]> fields
  | None => fields
  end.

Definition filterFields (vs : list (string * reflect.rtype))
  : gmap string graphql.Output :=
  fold_left filterStep vs ∅.

Definition intArg : graphql.ArgumentConfig :=
  {| graphql.ArgType := graphql.InOutput (graphql.OScalar graphql.Int) |}.

Definition synthArgs (structFieldName : string) (structFieldType : reflect.rtype)
    (subfields : graphql.Fields) (fm : gmap string graphql.ArgumentConfig)
  : result (gmap string graphql.ArgumentConfig * gmap string graphql.ArgumentConfig) :=
  let args := subfieldArgs subfields in
  match reflect.KindOf structFieldType with
  | reflect.Slice | reflect.Array =>
      let* elem := Elem structFieldType in
      if reflect.Kind_eqb (reflect.KindOf elem) reflect.Struct then
        match fm !! structFieldName with
        | Some argConfig => Ok (<["where" := argConfig]> args, fm)
        | None =>
            let argConfig :=
              {| graphql.ArgType :=
                   graphql.InObject (ToLower structFieldName)
                     (filterFields (reflect.VisibleFields elem)) |} in
            Ok (<["where" := argConfig]> args, <[structFieldName := argConfig]> fm)
        end
      else
        Ok (<["limit" := intArg]> (<["skip" := intArg]> args), fm)
  | _ => Ok (args, fm)
  end.

(** ** [createGraphQlFieldHierarchy] *)

Section MemberLoop.

Variable create : reflect.rtype -> BuildState ->
  result (option graphql.Output * graphql.Fields * BuildState).

(** One iteration of [for _, structField := range reflect.VisibleFields(t)]. *)
Definition memberStep (structField : string * reflect.rtype)
    (fields : graphql.Fields) (st : BuildState)
  : result (graphql.Fields * BuildState) :=
  let* (structFieldType, subfields, st1) := create (snd structField) st in
  match structFieldType with
  | None => Ok (fields, st1)
  | Some ty =>
      let* (args, fm) :=
        synthArgs (fst structField) (snd structField) subfields (filterMap st1) in
      Ok (<[ToLower (fst structField) :=
              {| graphql.FieldName := fst structField;
                 graphql.FieldType := Some ty;
                 graphql.Args := args;
                 graphql.Resolve :=
                   graphql.MemberResolve (fst structField)
                     (reflect.KindOf (snd structField))
              |}]> fields,
          withFilterMap st1 fm)
  end.

Fixpoint memberLoop (sfs : list (string * reflect.rtype))
    (fields : graphql.Fields) (st : BuildState)
  : result (graphql.Fields * BuildState) :=
  match sfs with
  | [] => Ok (fields, st)
  | structField :: rest =>
      let* (fields', st') := memberStep structField fields st in
      memberLoop rest fields' st'
  end.

End MemberLoop.

Fixpoint createGraphQlFieldHierarchy (t : reflect.rtype) (st : BuildState)
  : result (option graphql.Output * graphql.Fields * BuildState) :=
  match typesMap st !! reflect.Name t with
  | Some knownType => Ok (fst knownType, snd knownType, st)
  | None =>
      if is_typeTime t then Ok (Some (graphql.OScalar graphql.Float), ∅, st)
      else
        match t with
        | reflect.TFunc _ outs =>
            match outs with
            | [] => Panic "reflect: Out index out of range"
            | returnType :: _ =>
                if reflect.Kind_eqb (reflect.KindOf returnType) reflect.Interface
                then Ok (None, ∅, st)
                else createGraphQlFieldHierarchy returnType st
            end
        | reflect.TStruct _ name sfs =>
            let* (fields, st') := memberLoop createGraphQlFieldHierarchy sfs ∅ st in
            let '(o, st'') :=
              NewObject {| graphql.ObjName := name; graphql.ObjFields := fields |} st' in
            Ok (Some (graphql.OObject o), fields,
                setTypesMap st'' name (Some (graphql.OObject o), fields))
        | reflect.TList _ _ elem =>
            let* (nt, fields, st') := createGraphQlFieldHierarchy elem st in
            Ok (Some (graphql.OList nt), fields, st')
        | reflect.TPlain _ _ => Ok (getBasicOutput t, ∅, st)
        end
  end.

(** ** [Min] *)

(** Returns the minimum of the two given objects. *)
Definition Min (x y : Z) : Z := if x <? y then x else y.

(** ** The [Resolve] closure of a record member *)

(** [graphql.ResolveParams]: the enclosing instance and the arguments. *)
Record ResolveParams := { Source : option Value; ArgsOf : gmap string Arg }.

(** [filterOne.(map[string]interface{})] and [skip.(int)]. *)
Definition asMap (a : Arg) : result (list (string * ArgValue)) :=
  match a with
  | AObject members => Ok members
  | AScalar _ => Panic "interface conversion: interface {} is not map[string]interface {}"
  end.

Definition asInt (a : Arg) : result Z :=
  match a with
  | AScalar (AInt z) => Ok z
  | _ => Panic "interface conversion: interface {} is not int"
  end.

(** The chain of type assertions on [rv] under [case float64]. *)
Definition numericMatch (fv : spec_float) (rv : option Value) : bool :=
  match rv with
  | Some (VFloat64 yFloat64) => SFeqb fv yFloat64
  | Some (VInt int yInt) => SFeqb fv (float64_of_Z yInt)
  | Some (VInt int8 yInt8) => SFeqb fv (float64_of_Z yInt8)
  | Some (VInt int32 yInt32) => SFeqb fv (float64_of_Z yInt32)
  | Some (VInt int64 yInt64) => SFeqb fv (float64_of_Z yInt64)
  | _ => false
  end.

(** [filterValue == val.Interface()] on two interface values: equal
    dynamic types and equal values. *)
Definition ifaceEq (filterValue : ArgValue) (rv : option Value) : bool :=
  match filterValue, rv with
  | AInt x, Some (VInt int y) => x =? y
  | AFloat x, Some (VFloat64 y) => SFeqb x y
  | AString x, Some (VString y) => String.eqb x y
  | ABool x, Some (VBool y) => Bool.eqb x y
  | _, _ => false
  end.

(** [match] for one member of the filter against the member [val] of the
    element. *)
Definition filterMatch (filterValue : ArgValue) (val : option Value) : result bool :=
  match filterValue with
  | AFloat fv =>
      let* rv := Interface val in
      Ok (numericMatch fv rv)
  | _ =>
      let* rv := Interface val in
      Ok (ifaceEq filterValue rv)
  end.

(** [for fieldName, filterValue := range filter]: [true] when a member
    matched (the closure returns there). *)
Fixpoint filterLoop (element : Value) (filter : list (string * ArgValue))
  : result bool :=
  match filter with
  | [] => Ok false
  | (fieldName, filterValue) :: rest =>
      let* val := FieldByNameFunc (Some element)
                    (fun s => String.eqb (ToLower s) fieldName) in
      let* matched := filterMatch filterValue val in
      if matched then Ok true else filterLoop element rest
  end.

(** [for i := 0; i < j; i++] over the elements from index [i] on. *)
Fixpoint whereLoop (filterOne : Arg) (r : list Value) (i : Z) (rest : list Value)
  : result (list Value) :=
  match rest with
  | [] => Slice r 0 0
  | element :: rest' =>
      let* filter := asMap filterOne in
      let* matched := filterLoop element filter in
      if matched then Slice r i (i + 1)
      else whereLoop filterOne r (i + 1) rest'
  end.

(** The window of the 'skip' and 'limit' arguments. *)
Definition skipLimit (args : gmap string Arg) (r : list Value) : result (list Value) :=
  let i := 0 in
  let j := Z.of_nat (length r) in
  let* i :=
    match args !! "skip" with
    | Some skip => let* skip := asInt skip in Ok (Min skip (j - 1))
    | None => Ok i
    end in
  let* j :=
    match args !! "limit" with
    | Some limit => let* limit := asInt limit in Ok (Min (wrap64 (i + limit)) j)
    | None => Ok j
    end in
  Slice r i j.

Section Resolve.

(** The functions bound to the func values: [Call f self] is the pair
    [(results[0], results[1])] of the call of function [f] on [self]. *)
Variable Call : nat -> option Value -> result (option Value * option error).

Definition Resolve (structFieldName : string) (structFieldTypeKind : reflect.Kind)
    (p : ResolveParams) : result (option Value * option error) :=
  let* r := FieldByName (Source p) structFieldName in
  match structFieldTypeKind with
  | reflect.Func =>
      match r with
      | Some (VFunc None) => Ok (None, None)
      | Some (VFunc (Some f)) =>
          let* results := Call f (Source p) in
          Ok (fst results, snd results)
      | _ => Panic "reflect: call of reflect.Value.IsNil on a Value that is no func"
      end
  | reflect.Slice | reflect.Array =>
      let* elems := Elems r in
      match ArgsOf p !! "where" with
      | Some filterOne =>
          let* s := whereLoop filterOne elems 0 elems in
          Ok (Some (VSlice s), None)
      | None =>
          let* s := skipLimit (ArgsOf p) elems in
          Ok (Some (VSlice s), None)
      end
  | _ =>
      match r with
      | Some (VInt _ z) => Ok (Some (VFloat64 (float64_of_Z z)), None)
      | Some (VUint uintptr _) => Ok (None, Some "unknown type")
      | Some (VUint _ z) => Ok (Some (VFloat64 (float64_of_Z z)), None)
      | Some (VBool b) => Ok (Some (VBool b), None)
      | Some (VFloat32 f) => Ok (Some (VFloat64 (float64_of_float32 f)), None)
      | Some (VFloat64 f) => Ok (Some (VFloat64 f), None)
      | Some (VString s) => Ok (Some (VString s), None)
      | Some (VTime t) => Ok (Some (VFloat64 (float64_of_Z (UnixMilli t))), None)
      | Some (VStruct pkg name fields) => Ok (Some (VStruct pkg name fields), None)
      | _ => Ok (None, Some "unknown type")
      end
  end.

(** The closure a field carries, run on the parameters of a resolution. *)
Definition runResolver (c : graphql.Resolver) (p : ResolveParams)
  : result (option Value * option error) :=
  match c with
  | graphql.MemberResolve structFieldName structFieldTypeKind =>
      Resolve structFieldName structFieldTypeKind p
  | graphql.RootResolve o => Ok (o, None)
  end.

End Resolve.

(** ** [executeQuery] and [QueryStructViaGraphql] *)

(** The configuration handed to [graphql.NewSchema]: the object
    "RootQuery", whose one field has the type built for the root value and
    resolves to that value. *)
Definition rootSchemaConfig (rootField : string) (typ : option graphql.Output)
    (o : option Value) (st : BuildState) : graphql.SchemaConfig :=
  let fields : graphql.Fields :=
    <[rootField := {| graphql.FieldName := "";
                      graphql.FieldType := typ;
                      graphql.Args := ∅;
                      graphql.Resolve := graphql.RootResolve o |}]> ∅ in
  let rootQuery := {| graphql.ObjName := "RootQuery"; graphql.ObjFields := fields |} in
  let (root, st') := NewObject rootQuery st in
  {| graphql.Query := graphql.OObject root; graphql.Store := objects st' |}.

Section TopLevel.

(** The query-execution collaborator and the serializer: [graphql.NewSchema],
    [graphql.Do] and [json.MarshalIndent], over the result trees [D]. *)
Variable D : Type.
Variable Schema : Type.
Variable NewSchema : graphql.SchemaConfig -> Schema * option error.
Variable Do : Schema -> string -> graphql.Result D.
Variable MarshalIndent :
  option (graphql.Result D) -> string -> string -> string * option error.

Definition executeQuery (query : string) (schema : Schema)
  : option (graphql.Result D) * option error :=
  let result := Do schema query in
  match graphql.Errors result with
  | e :: _ => (None, graphql.OriginalError e)
  | [] => (Some result, None)
  end.

(** [T] is the type parameter, [o] the root value. The first component of
    the result is the byte slice (nil is [None]). *)
Definition QueryStructViaGraphql (rootField : string) (T : reflect.rtype)
    (o : option Value) (query : string)
  : result (option string * option error) :=
  let* (typ, _, st) := createGraphQlFieldHierarchy T emptyState in
  let (schema, err) := NewSchema (rootSchemaConfig rootField typ o st) in
  match err with
  | Some e => Ok (None, Some e)
  | None =>
      let (result, err) := executeQuery query schema in
      match err with
      | Some e => Ok (None, Some e)
      | None =>
          let (b, err) := MarshalIndent result "" "  " in
          match err with
          | Some e => Ok (None, Some e)
          | None => Ok (Some b, None)
          end
      end
  end.

End TopLevel.

Arguments executeQuery {D Schema} Do query schema.
Arguments QueryStructViaGraphql {D Schema} NewSchema Do MarshalIndent
  rootField T o query.

(** ** Notions used to state the properties *)

(** The number held by a member of one of the ten integer types
    ([uintptr], which neither [getBasicOutput] nor [Resolve] lists, is not
    one of them). *)
Definition integerValue (v : Value) : option Z :=
  match v with
  | VInt _ z => Some z
  | VUint uintptr _ => None
  | VUint _ z => Some z
  | _ => None
  end.

(** The filter of a 'where' argument, in the words of the specification:
    the member of the element with the same name as a filter member (names
    compared in lower case), the comparison of the two, and the first
    element that some filter member matches. *)
Definition sameNamedMember (element : Value) (fieldName : string)
  : result (option Value) :=
  FieldByNameFunc (Some element) (fun s => String.eqb (ToLower s) fieldName).

Definition memberCompares (element : Value) (member : string * ArgValue)
  : result bool :=
  let* val := sameNamedMember element (fst member) in
  filterMatch (snd member) val.

(** No comparison of a member of the filter with the element panics: each
    member of the filter names exactly one member of the element. *)
Definition comparable (filter : list (string * ArgValue)) (element : Value) : bool :=
  forallb
    (fun member =>
       match memberCompares element member with
       | Ok _ => true
       | Panic _ => false
       end)
    filter.

Definition memberEquals (element : Value) (member : string * ArgValue) : bool :=
  match memberCompares element member with
  | Ok b => b
  | Panic _ => false
  end.

Definition matchesSome (filter : list (string * ArgValue)) (element : Value) : bool :=
  existsb (memberEquals element) filter.

Definition firstMatch (filter : list (string * ArgValue)) (elems : list Value)
  : list Value :=
  match find (matchesSome filter) elems with
  | Some element => [element]
  | None => []
  end.

(** The window of 'skip' and 'limit', in the words of the specification. *)
Definition windowStart (skip : option Z) (len : Z) : Z :=
  match skip with
  | Some s => Z.min s (len - 1)
  | None => 0
  end.

Definition windowEnd (limit : option Z) (start len : Z) : Z :=
  match limit with
  | Some l => Z.min (start + l) len
  | None => len
  end.

Definition subCollection (r : list Value) (start stop : Z) : list Value :=
  take (Z.to_nat (stop - start)) (drop (Z.to_nat start) r).

(** The types a schema has no descriptor for: a func type whose first
    result is of interface kind, and a type of a kind outside the table of
    [getBasicOutput]. *)
Definition omittedType (t : reflect.rtype) : bool :=
  match t with
  | reflect.TFunc _ (returnType :: _) =>
      reflect.Kind_eqb (reflect.KindOf returnType) reflect.Interface
  | reflect.TPlain _ _ =>
      match getBasicOutput t with
      | None => true
      | Some _ => false
      end
  | _ => false
  end.

(** The arguments of the field [field] of the object built for the record
    type [t] by a build that starts from empty maps. *)
Definition fieldArgs (t : reflect.rtype) (field : string)
  : option (gmap string graphql.ArgumentConfig) :=
  match createGraphQlFieldHierarchy t emptyState with
  | Ok (_, fields, _) => graphql.Args <$> fields !! field
  | Panic _ => None
  end.

(** The names of the record types in a type, and the types in which no
    record type has a record type of its own name below its members. *)
Fixpoint structNames (t : reflect.rtype) : list string :=
  match t with
  | reflect.TPlain _ _ => []
  | reflect.TList _ _ elem => structNames elem
  | reflect.TFunc _ outs =>
      match outs with
      | [] => []
      | returnType :: _ => structNames returnType
      end
  | reflect.TStruct _ name sfs =>
      name :: flat_map (fun f => structNames (snd f)) sfs
  end.

Fixpoint wellNested (t : reflect.rtype) : bool :=
  match t with
  | reflect.TPlain _ _ => true
  | reflect.TList _ _ elem => wellNested elem
  | reflect.TFunc _ outs =>
      match outs with
      | [] => true
      | returnType :: _ => wellNested returnType
      end
  | reflect.TStruct _ name sfs =>
      negb (existsb (String.eqb name) (flat_map (fun f => structNames (snd f)) sfs))
      && forallb (fun f => wellNested (snd f)) sfs
  end.

(** The names under which objects were registered, and the invariant of
    the cache: these names are distinct and each has its entry. *)
Definition registeredNames (st : BuildState) : list string :=
  graphql.ObjName <$> objects st.

Definition cacheInvariant (st : BuildState) : Prop :=
  NoDup (registeredNames st)
  /\ forall n, n ∈ registeredNames st -> is_Some (typesMap st !! n).

(** What a build that leads from [st] to [st'] leaves as it was: the
    entries of the cache under the names outside [names], the presence of
    every entry, and the objects of the store. *)
Definition preserves (names : list string) (st st' : BuildState) : Prop :=
  (forall k, k ∉ names -> typesMap st' !! k = typesMap st !! k)
  /\ (forall k, is_Some (typesMap st !! k) -> is_Some (typesMap st' !! k))
  /\ (exists new, objects st' = (objects st ++ new)%list).

(** ** Notions used to state the further properties *)

(** The types, all finite trees, on which the build cannot panic: every
    func type on the way has a result ([t.Out(0)] exists), and a type
    without structure is of a plain kind. *)
Fixpoint wellFormed (t : reflect.rtype) : bool :=
  match t with
  | reflect.TPlain _ k => reflect.plain k
  | reflect.TList _ _ elem => wellFormed elem
  | reflect.TFunc _ outs =>
      match outs with
      | [] => false
      | returnType :: _ => wellFormed returnType
      end
  | reflect.TStruct _ _ sfs => forallb (fun f => wellFormed (snd f)) sfs
  end.

(** The object an output type leads to, through any number of lists, and the
    output types whose object lies below [n], the length of a store. *)
Fixpoint outputPtr (o : graphql.Output) : option nat :=
  match o with
  | graphql.OScalar _ => None
  | graphql.OList None => None
  | graphql.OList (Some ofType) => outputPtr ofType
  | graphql.OObject ptr => Some ptr
  end.

Definition validOutput (n : nat) (o : graphql.Output) : Prop :=
  forall ptr, outputPtr o = Some ptr -> (ptr < n)%nat.

Definition validFields (n : nat) (fields : graphql.Fields) : Prop :=
  forall k f o, fields !! k = Some f -> graphql.FieldType f = Some o -> validOutput n o.

(** No pointer of the cache or of the store leaves the store; [closedResult]
    says the same of the result of a build as well. *)
Definition storeClosed (st : BuildState) : Prop :=
  (forall k o fields, typesMap st !! k = Some (o, fields) ->
     (forall o', o = Some o' -> validOutput (length (objects st)) o')
     /\ validFields (length (objects st)) fields)
  /\ (forall p cfg, objects st !! p = Some cfg ->
        validFields (length (objects st)) (graphql.ObjFields cfg)).

Definition closedResult (st : BuildState) (o : option graphql.Output)
    (fields : graphql.Fields) : Prop :=
  storeClosed st
  /\ (forall o', o = Some o' -> validOutput (length (objects st)) o')
  /\ validFields (length (objects st)) fields.

(** The field [f] found under the key [k] is the field of a member of the
    list [sfs]: the key is the member's name in lower case, the field has a
    type, and its closure captures the member's name and the kind of the
    member's type. *)
Definition fieldOfMember (sfs : list (string * reflect.rtype)) (k : string)
    (f : graphql.Field) : Prop :=
  k = ToLower (graphql.FieldName f)
  /\ is_Some (graphql.FieldType f)
  /\ exists t, (graphql.FieldName f, t) ∈ sfs
       /\ graphql.Resolve f
          = graphql.MemberResolve (graphql.FieldName f) (reflect.KindOf t).

(** [v.Type == graphql.Int], and the field maps, cache and store in which it
    holds of no field. *)
Definition declaredInt (o : option graphql.Output) : bool :=
  match o with
  | Some (graphql.OScalar graphql.Int) => true
  | _ => false
  end.

Definition intFree (fields : graphql.Fields) : Prop :=
  forall k f, fields !! k = Some f -> declaredInt (graphql.FieldType f) = false.

Definition stateIntFree (st : BuildState) : Prop :=
  (forall k o fields, typesMap st !! k = Some (o, fields) ->
     declaredInt o = false /\ intFree fields)
  /\ (forall p cfg, objects st !! p = Some cfg -> intFree (graphql.ObjFields cfg)).

(** The kinds of [case reflect.Slice, reflect.Array]. *)
Definition collectionKind (k : reflect.Kind) : bool :=
  match k with
  | reflect.Slice | reflect.Array => true
  | _ => false
  end.

(** The values of the basic kinds, and the scalar as which the executor
    serializes a resolved value: a Go string, float64 or bool. *)
Definition basicValue (v : Value) : bool :=
  match v with
  | VBool _ | VInt _ _ | VUint _ _ | VFloat32 _ | VFloat64 _ | VString _ => true
  | _ => false
  end.

Definition scalarOfValue (v : Value) : option graphql.Scalar :=
  match v with
  | VString _ => Some graphql.String
  | VFloat64 _ => Some graphql.Float
  | VBool _ => Some graphql.Boolean
  | _ => None
  end.

(** The members of a record value whose name in lower case is [fieldName]. *)
Definition membersNamed (fieldName : string) (fields : list (string * Value))
  : list (string * Value) :=
  filter (fun f => String.eqb (ToLower (fst f)) fieldName) fields.

(** The 'where' filter in the words of the specification. A number is
    kept as a pair [(m, e)] that stands for [m * 2^e], so that numbers of
    every width and of both floating-point types compare by their value:
    "any numeric representation compares equal if mathematically equal,
    regardless of width/signedness". *)
Definition numberOfFloat (f : spec_float) : option (Z * Z) :=
  match f with
  | S754_zero _ => Some (0, 0)
  | S754_finite s m e => Some (cond_Zopp s (Z.pos m), e)
  | _ => None
  end.

Definition numberOf (v : Value) : option (Z * Z) :=
  match v with
  | VInt _ z | VUint _ z => Some (z, 0)
  | VFloat32 f | VFloat64 f => numberOfFloat f
  | _ => None
  end.

Definition numberOfArg (filterValue : ArgValue) : option (Z * Z) :=
  match filterValue with
  | AInt z => Some (z, 0)
  | AFloat f => numberOfFloat f
  | _ => None
  end.

Definition sameNumber (a b : Z * Z) : bool :=
  let k := Z.min (snd a) (snd b) in
  fst a * 2 ^ (snd a - k) =? fst b * 2 ^ (snd b - k).

Definition specEquals (filterValue : ArgValue) (v : Value) : bool :=
  match numberOfArg filterValue, numberOf v with
  | Some a, Some b => sameNumber a b
  | _, _ =>
      match filterValue, v with
      | AString x, VString y => String.eqb x y
      | ABool x, VBool y => Bool.eqb x y
      | _, _ => false
      end
  end.

(** "The element's same-named member": the first member of the record
    whose name in lower case is the name of the filter member. *)
Definition memberNamed (element : Value) (fieldName : string) : option Value :=
  match element with
  | VStruct _ _ fields =>
      snd <$> find (fun f => String.eqb (ToLower (fst f)) fieldName) fields
  | _ => None
  end.

Definition specMemberEquals (element : Value) (member : string * ArgValue) : bool :=
  match memberNamed element (fst member) with
  | Some v => specEquals (snd member) v
  | None => false
  end.

(** "The first element for which some filter member's value equals the
    element's same-named member is returned as a single-element
    collection"; the empty collection when there is none. *)
Definition specFirstMatch (filter : list (string * ArgValue)) (elems : list Value)
  : list Value :=
  match find (fun element => existsb (specMemberEquals element) filter) elems with
  | Some element => [element]
  | None => []
  end.

(** The comparisons on which the code and the specification agree: two
    strings, two booleans, or the float64 of an integer against a member
    of one of the types the chain of assertions lists, both of magnitude
    up to 2^53. *)
Definition comparedAsSpecified (filterValue : ArgValue) (v : Value) : Prop :=
  (exists x y, filterValue = AString x /\ v = VString y)
  \/ (exists x y, filterValue = ABool x /\ v = VBool y)
  \/ (exists x t y, filterValue = AFloat (float64_of_Z x) /\ v = VInt t y
        /\ t <> int16 /\ Z.abs x <= 2 ^ 53 /\ Z.abs y <= 2 ^ 53).

(** Every member of the filter names exactly one member of the element,
    and the two are compared as specified. *)
Definition filterApplies (filter : list (string * ArgValue)) (element : Value) : Prop :=
  exists pkg name fields, element = VStruct pkg name fields
    /\ forall member, member ∈ filter ->
         exists f, membersNamed (fst member) fields = [f]
           /\ comparedAsSpecified (snd member) (snd f).

(** The type of the field [field] of the object built for the record type
    [t] by a build that starts from empty maps. *)
Definition fieldType (t : reflect.rtype) (field : string)
  : option (option graphql.Output) :=
  match createGraphQlFieldHierarchy t emptyState with
  | Ok (_, fields, _) => graphql.FieldType <$> fields !! field
  | Panic _ => None
  end.

(** ** Example inputs *)

(** The record types of the sample data of [main.go]. *)
Definition tString : reflect.rtype := reflect.TPlain "string" reflect.String.
Definition tInt : reflect.rtype := reflect.TPlain "int" reflect.Int.
Definition tError : reflect.rtype := reflect.TPlain "error" reflect.Interface.

Definition Cat : reflect.rtype :=
  reflect.TStruct "main" "Cat"
    [("Name", tString); ("Age", tInt); ("Color", tString)].

Definition Dog : reflect.rtype :=
  reflect.TStruct "main" "Dog"
    [("Name", tString); ("Age", tInt); ("Color", tString); ("Friend", Cat);
     ("Enemies", reflect.TFunc "" [reflect.TList "" false Cat; tError])].

(** A record with a collection of records, [Dogs []Dog], and a collection
    of records without a scalar member, [Crates []Crate]. *)
Definition Crate : reflect.rtype := reflect.TStruct "main" "Crate" [("Pet", Cat)].

Definition Kennel : reflect.rtype :=
  reflect.TStruct "main" "Kennel"
    [("Dogs", reflect.TList "" false Dog);
     ("Crates", reflect.TList "" false Crate);
     ("Tags", reflect.TList "" false tString)].

(** The example of the comment that opens [createGraphQlFieldHierarchy]:
    two members of one record type. *)
Definition FooStruct : reflect.rtype := reflect.TStruct "main" "FooStruct" [("Z", tInt)].

Definition Foo : reflect.rtype :=
  reflect.TStruct "main" "Foo" [("X", FooStruct); ("Y", FooStruct)].

(** Two record types named [Config], of the packages [db] and [app], the
    first the type of a member of the second. *)
Definition dbConfig : reflect.rtype := reflect.TStruct "db" "Config" [("Port", tInt)].
Definition appConfig : reflect.rtype := reflect.TStruct "app" "Config" [("Db", dbConfig)].

(** Values: cats as in [main.go], and a root with collections. *)
Definition cat (name : string) (age : Z) (color : string) : Value :=
  VStruct "main" "Cat"
    [("Name", VString name); ("Age", VInt int age); ("Color", VString color)].

Definition noCall : nat -> option Value -> result (option Value * option error) :=
  fun _ _ => Panic "no function is bound".

(** A root with a collection of records whose member [Age] is an
    [int16], and the same with an [int]. *)
Definition pets (age : Value) : option Value :=
  Some (VStruct "main" "Shop"
          [("Pets", VSlice [VStruct "main" "Pet" [("Age", age)]])]).

(** The example of the specification: three records, the first and the
    third black. *)
Definition coloured : list Value :=
  [cat "Bello" 2 "Black"; cat "Momo" 3 "White"; cat "Kuro" 1 "Black"].

Definition shelter : option Value :=
  Some (VStruct "main" "Shelter"
          [("Cats", VSlice coloured);
           ("Tags", VSlice [VString "a"; VString "b"; VString "c";
                            VString "d"; VString "e"]);
           ("Empty", VSlice []);
           ("Born", VTime {| unixSec := 1700000000; nsec := 123456789;
                             loc := "Europe/Berlin" |});
           ("Count", VUint uint64 (2 ^ 53 + 1));
           ("Hates", VFunc (Some 0%nat));
           ("Likes", VFunc None)]).

(** The function bound to the func value 0 of [shelter]: it returns a
    collection and an error. *)
Definition hates : nat -> option Value -> result (option Value * option error) :=
  fun f self =>
    match f with
    | O => Ok (Some (VSlice [cat "Hana" 1 "Gray"]), Some "it is Monday")
    | S _ => Panic "no function is bound"
    end.

(** A record type with a member of func type whose result is of interface
    kind, between two scalar members. *)
Definition tAnyFunc : reflect.rtype :=
  reflect.TFunc "" [reflect.TPlain "" reflect.Interface; tError].

(** A collaborator that reports two errors, and one that reports none. *)
Definition twoErrors (schema : graphql.SchemaConfig) (query : string)
  : graphql.Result unit :=
  {| graphql.Data := tt;
     graphql.Errors :=
       [{| graphql.Message := "first"; graphql.OriginalError := Some "first" |};
        {| graphql.Message := "second"; graphql.OriginalError := Some "second" |}] |}.

Definition noErrors (schema : graphql.SchemaConfig) (query : string)
  : graphql.Result unit :=
  {| graphql.Data := tt; graphql.Errors := [] |}.

Definition acceptSchema (cfg : graphql.SchemaConfig)
  : graphql.SchemaConfig * option error := (cfg, None).

Definition printIndent (r : option (graphql.Result unit)) (prefix indent : string)
  : string * option error :=
  (String.append prefix (String.append "{" (String.append indent "}")), None).

(** The state a build of [Kennel] from empty maps leaves, a record whose
    collection [Dogs] is of another record type, and the filter shape
    registered for the member [Dogs] of [Kennel]. *)
Definition kennelState : BuildState :=
  match createGraphQlFieldHierarchy Kennel emptyState with
  | Ok (_, _, st) => st
  | Panic _ => emptyState
  end.

Definition Pound : reflect.rtype :=
  reflect.TStruct "main" "Pound" [("Dogs", reflect.TList "" false Crate)].

Definition dogsFilter : graphql.ArgumentConfig :=
  {| graphql.ArgType :=
       graphql.InObject "dogs" (filterFields (reflect.VisibleFields Dog)) |}.

(** The member [Tags] of [shelter]. *)
Definition tags : list Value :=
  [VString "a"; VString "b"; VString "c"; VString "d"; VString "e"].

(** A record with a member of an unnamed record type before a pointer
    and a func whose first result is of interface kind:
    [struct { Inner struct{ X int }; Ptr *int; Any func(Box) (any, error) }],
    and the same without the member [Inner]. *)
Definition tIntPtr : reflect.rtype := reflect.TPlain "" reflect.Pointer.

Definition Box : reflect.rtype :=
  reflect.TStruct "main" "Box"
    [("Inner", reflect.TStruct "" "" [("X", tInt)]);
     ("Ptr", tIntPtr); ("Any", tAnyFunc)].

Definition Bare : reflect.rtype :=
  reflect.TStruct "main" "Bare" [("Ptr", tIntPtr); ("Any", tAnyFunc)].

(** A record with a collection of timestamps, [struct { Times []time.Time }],
    a value of it, and a record with a member of a record type named
    [Time] of another package before a timestamp. *)
Definition Log : reflect.rtype :=
  reflect.TStruct "main" "Log" [("Times", reflect.TList "" false typeTime)].

Definition newYear : Time := {| unixSec := 1704067200; nsec := 0; loc := "UTC" |}.

Definition log : option Value :=
  Some (VStruct "main" "Log" [("Times", VSlice [VTime newYear]); ("At", VTime newYear)]).

Definition Rec : reflect.rtype :=
  reflect.TStruct "main" "Rec"
    [("Stamp", reflect.TStruct "other" "Time" [("Zone", tString)]);
     ("At", typeTime)].

(** The record type [type Node struct{ Children []Node }] unrolled [n]
    times: the innermost [Node] is cut off, without members. *)
Fixpoint unrolledNode (n : nat) : reflect.rtype :=
  reflect.TStruct "main" "Node"
    match n with
    | O => []
    | S n' => [("Children", reflect.TList "" false (unrolledNode n'))]
    end.

(** A collaborator that rejects the schema. *)
Definition rejectSchema (cfg : graphql.SchemaConfig)
  : graphql.SchemaConfig * option error :=
  (cfg, Some "Schema must contain uniquely named types").

(** ** [main.go]: the sample data and the two handlers *)

Definition cats : list Value :=
  [cat "Maru" 3 "White"; cat "Hana" 1 "Gray"; cat "Lily" 2 "Black"].

Definition dog (name : string) (age : Z) (color : string) (friend enemies : Value)
  : Value :=
  VStruct "main" "Dog"
    [("Name", VString name); ("Age", VInt int age); ("Color", VString color);
     ("Friend", friend); ("Enemies", enemies)].

(** The func value of Bello is the function 0 of the table of functions;
    the two others are nil. *)
Definition dogs : list Value :=
  [dog "Bello" 2 "Black" (cat "Maru" 3 "White") (VFunc (Some 0%nat));
   dog "Momo" 3 "White" (cat "Maru" 3 "White") (VFunc None);
   dog "Kuro" 1 "Gray" (cat "Hana" 1 "Gray") (VFunc None)].

Module http.
Definition StatusOK : Z := 200.
Definition StatusBadRequest : Z := 400.
End http.

(** The response a handler writes: [c.JSON(code, map)] or
    [c.String(code, s)]. A handler returns the error of that call; what is
    modelled is the response it writes. *)
Module echo.
Inductive Response : Type :=
| JSON (code : Z) (body : gmap string string)
| String (code : Z) (s : string).
End echo.

(** [string(b)] of a byte slice; the nil slice gives the empty string. *)
Definition string_of_bytes (b : option string) : string :=
  match b with
  | Some s => s
  | None => ""
  end.

Section Handlers.

(** The request context with [c.Bind(&post)], which gives [post.Query] and
    an error, and the collaborators of [QueryStructViaGraphql]. *)
Variable Context : Type.
Variable Bind : Context -> string * option error.
Variable D : Type.
Variable Schema : Type.
Variable NewSchema : graphql.SchemaConfig -> Schema * option error.
Variable Do : Schema -> string -> graphql.Result D.
Variable MarshalIndent :
  option (graphql.Result D) -> string -> string -> string * option error.

Definition QueryDogs (c : Context) : result echo.Response :=
  let (post, err) := Bind c in
  match err with
  | Some _ =>
      Ok (echo.JSON http.StatusBadRequest {[ "error" := "Invalid request body" ]})
  | None =>
      let* (b, err) :=
        QueryStructViaGraphql NewSchema Do MarshalIndent "dogs"
          (reflect.TList "" false Dog) (Some (VSlice dogs)) post in
      match err with
      | Some _ =>
          Ok (echo.JSON http.StatusBadRequest {[ "error" := "Invalid request body" ]})
      | None => Ok (echo.String http.StatusOK (string_of_bytes b))
      end
  end.

Definition QueryCats (c : Context) : result echo.Response :=
  let (post, err) := Bind c in
  match err with
  | Some _ =>
      Ok (echo.JSON http.StatusBadRequest {[ "error" := "Invalid request body" ]})
  | None =>
      let* (b, err) :=
        QueryStructViaGraphql NewSchema Do MarshalIndent "cats"
          (reflect.TList "" false Cat) (Some (VSlice cats)) post in
      match err with
      | Some _ =>
          Ok (echo.JSON http.StatusBadRequest {[ "error" := "Invalid request body" ]})
      | None => Ok (echo.String http.StatusOK (string_of_bytes b))
      end
  end.

End Handlers.

Arguments QueryDogs {Context} Bind {D Schema} NewSchema Do MarshalIndent c.
Arguments QueryCats {Context} Bind {D Schema} NewSchema Do MarshalIndent c.

(** ** Induction on types *)

(** Induction on a type, with the hypothesis for every result type of a
    func type and every member of a record type. *)
Section rtype_induction.

Variable P : reflect.rtype -> Prop.
Hypothesis HPlain : forall name k, P (reflect.TPlain name k).
Hypothesis HList : forall name isArray elem, P elem -> P (reflect.TList name isArray elem).
Hypothesis HFunc : forall name outs, Forall P outs -> P (reflect.TFunc name outs).
Hypothesis HStruct : forall pkg name sfs,
  Forall (fun f => P (snd f)) sfs -> P (reflect.TStruct pkg name sfs).

Fixpoint rtype_nested_ind (t : reflect.rtype) : P t :=
  match t with
  | reflect.TPlain name k => HPlain name k
  | reflect.TList name isArray elem => HList name isArray elem (rtype_nested_ind elem)
  | reflect.TFunc name outs =>
      HFunc name outs
        ((fix go (l : list reflect.rtype) : Forall P l :=
            match l with
            | [] => List.Forall_nil P
            | x :: l' => List.Forall_cons P x l' (rtype_nested_ind x) (go l')
            end) outs)
  | reflect.TStruct pkg name sfs =>
      HStruct pkg name sfs
        ((fix go (l : list (string * reflect.rtype)) : Forall (fun f => P (snd f)) l :=
            match l with
            | [] => List.Forall_nil _
            | x :: l' => List.Forall_cons _ x l' (rtype_nested_ind (snd x)) (go l')
            end) sfs)
  end.

End rtype_induction.

(** * Properties *)

(** ** Conversion of integers to float64 *)

(** [SpecFloat] computes with the integer operations of the core library;
    they are those of [ZArith]. *)
Ltac std_Z :=
  change IntDef.Z.max with Z.max in *; change IntDef.Z.sub with Z.sub in *;
  change IntDef.Z.add with Z.add in *; change IntDef.Z.leb with Z.leb in *;
  change IntDef.Z.opp with Z.opp in *.

Lemma digits2_pos_size (m : positive) : digits2_pos m = Pos.size m.
Proof. induction m; simpl; congruence. Qed.

Lemma digits2_pos_iter_xO (m n : positive) :
  digits2_pos (Pos.iter xO m n) = (digits2_pos m + n)%positive.
Proof.
  revert m. induction n using Pos.peano_ind; intros m.
  - simpl. lia.
  - rewrite Pos.iter_succ. simpl. rewrite IHn. lia.
Qed.

Lemma Zpos_iter_xO (m n : positive) :
  Z.pos (Pos.iter xO m n) = Z.pos m * 2 ^ Z.pos n.
Proof.
  revert m. induction n using Pos.peano_ind; intros m.
  - simpl. lia.
  - rewrite Pos.iter_succ. rewrite Pos2Z.inj_xO, IHn.
    rewrite Pos2Z.inj_succ, Z.pow_succ_r by lia. lia.
Qed.

Lemma digits2_pos_bound (m : positive) :
  Z.pos m < 2 ^ 53 -> Z.pos (digits2_pos m) <= 53.
Proof.
  intros H. rewrite digits2_pos_size.
  destruct (Z_le_gt_dec (Z.pos (Pos.size m)) 53) as [|Hgt]; [assumption|exfalso].
  pose proof (Pos.size_le m) as Hle.
  apply Pos2Z.pos_le_pos in Hle. rewrite Pos2Z.inj_pow in Hle.
  assert (H54 : 2 ^ 54 <= 2 ^ Z.pos (Pos.size m)) by (apply Z.pow_le_mono_r; lia).
  lia.
Qed.

Lemma fexp64_eq (e : Z) : 1 <= e -> fexp 53 1024 e = e - 53.
Proof. intros H. unfold fexp, emin. std_Z. lia. Qed.

(** A mantissa of 53 bits is left as it is by the shift to the exponent
    of its format. *)
Lemma shr_fexp_canonical (m : positive) (e : Z) :
  Z.pos (digits2_pos m) = 53 -> -1074 <= e ->
  shr_fexp 53 1024 (Z.pos m) e loc_Exact =
  ({| shr_m := Z.pos m; shr_r := false; shr_s := false |}, e).
Proof.
  intros Hd He. unfold shr_fexp. std_Z.
  replace (fexp 53 1024 (Zdigits2 (Z.pos m) + e) - e) with 0; [reflexivity|].
  unfold fexp, emin, Zdigits2. std_Z. lia.
Qed.

Lemma binary_round_aux_canonical (s : bool) (m : positive) (e : Z) :
  Z.pos (digits2_pos m) = 53 -> -1074 <= e <= 971 ->
  binary_round_aux 53 1024 s (Z.pos m) e loc_Exact = S754_finite s m e.
Proof.
  intros Hd He.
  unfold binary_round_aux. rewrite shr_fexp_canonical by lia.
  cbn [shr_m loc_of_shr_record round_nearest_even].
  rewrite shr_fexp_canonical by lia.
  cbn [shr_m]. std_Z.
  destruct (e <=? 1024 - 53) eqn:E; [reflexivity|]. apply Z.leb_gt in E. lia.
Qed.

(** Below 2^53 the rounding only aligns the mantissa. *)
Lemma binary_round_small (s : bool) (m : positive) :
  Z.pos m < 2 ^ 53 ->
  exists m' e, binary_round 53 1024 s m 0 = S754_finite s m' e /\ e <= 0 /\
               Z.pos m' = Z.pos m * 2 ^ (- e).
Proof.
  intros H. apply digits2_pos_bound in H.
  unfold binary_round, shl_align. std_Z.
  rewrite fexp64_eq by lia.
  destruct (Z.pos (digits2_pos m) + 0 - 53 - 0) as [|p|p] eqn:Hp; try lia.
  - exists m, 0. split; [|split; [lia| simpl; lia]].
    apply binary_round_aux_canonical; lia.
  - exists (Pos.iter xO m p), (Z.pos (digits2_pos m) + 0 - 53). split; [|split; [lia|]].
    + apply binary_round_aux_canonical; [|lia].
      rewrite digits2_pos_iter_xO. lia.
    + rewrite Zpos_iter_xO. f_equal. f_equal. lia.
Qed.

Lemma float64_of_Z_exact (z : Z) : Z.abs z <= 2 ^ 53 -> SFexact (float64_of_Z z) z.
Proof.
  intros H.
  destruct (Z.eq_dec (Z.abs z) (2 ^ 53)) as [E|NE].
  { destruct (Z.abs_spec z) as [[_ Ha]|[_ Ha]]; rewrite Ha in E.
    - subst z. vm_compute. reflexivity.
    - replace z with (- 2 ^ 53) by lia. vm_compute. reflexivity. }
  unfold float64_of_Z, binary_normalize.
  destruct z as [|m|m]; [reflexivity| |].
  - destruct (binary_round_small false m) as (m' & e & -> & He & Hm); [lia|].
    unfold SFexact. simpl cond_Zopp.
    destruct (0 <=? e) eqn:E0.
    + apply Z.leb_le in E0. assert (e = 0) by lia. subst e. simpl in Hm. lia.
    + lia.
  - destruct (binary_round_small true m) as (m' & e & -> & He & Hm); [lia|].
    unfold SFexact. simpl cond_Zopp.
    destruct (0 <=? e) eqn:E0.
    + apply Z.leb_le in E0. assert (e = 0) by lia. subst e. simpl in Hm. lia.
    + rewrite Hm. lia.
Qed.

(** ** The scan of a 'where' filter *)

Lemma filterLoop_matchesSome (element : Value) (filter : list (string * ArgValue)) :
  comparable filter element = true ->
  filterLoop element filter = Ok (matchesSome filter element).
Proof.
  induction filter as [|[fieldName filterValue] rest IH]; intros Hc; [reflexivity|].
  unfold comparable in Hc. cbn [forallb] in Hc.
  apply andb_true_iff in Hc as [Hb Hrest]. specialize (IH Hrest).
  unfold matchesSome. cbn [filterLoop existsb]. unfold memberEquals at 1.
  unfold memberCompares, sameNamedMember in Hb |- *. cbn [fst snd] in Hb |- *.
  destruct (FieldByNameFunc _ _) as [val|]; [|discriminate]. cbn [rbind] in Hb |- *.
  destruct (filterMatch filterValue val) as [b|]; [|discriminate]. cbn [rbind].
  destruct b; [reflexivity|]. exact IH.
Qed.

Lemma matchesSome_Permutation (filter visited : list (string * ArgValue)) (element : Value) :
  Permutation filter visited -> matchesSome filter element = matchesSome visited element.
Proof.
  intros HP. unfold matchesSome. induction HP; cbn [existsb].
  - reflexivity.
  - by rewrite IHHP.
  - rewrite !orb_assoc. f_equal. apply orb_comm.
  - congruence.
Qed.

Lemma comparable_Permutation (filter visited : list (string * ArgValue)) (element : Value) :
  Permutation filter visited ->
  comparable filter element = true -> comparable visited element = true.
Proof.
  unfold comparable. rewrite !forallb_forall. intros HP Hc m Hm.
  apply Hc. eapply Permutation_in; [symmetry; exact HP|exact Hm].
Qed.

Lemma Slice_one (pre rest : list Value) (element : Value) :
  Slice (pre ++ element :: rest) (Z.of_nat (length pre)) (Z.of_nat (length pre) + 1)
  = Ok [element].
Proof.
  unfold Slice.
  rewrite length_app. cbn [length].
  replace ((0 <=? Z.of_nat (length pre)) && (Z.of_nat (length pre) <=? Z.of_nat (length pre) + 1)
           && (Z.of_nat (length pre) + 1 <=? Z.of_nat (length pre + S (length rest))))%bool with true.
  2:{ symmetry. rewrite !andb_true_iff, !Z.leb_le. lia. }
  rewrite Nat2Z.id. replace (Z.to_nat (Z.of_nat (length pre) + 1 - Z.of_nat (length pre))) with 1%nat by lia.
  rewrite drop_app_length. reflexivity.
Qed.

Lemma Slice_empty (r : list Value) : Slice r 0 0 = Ok [].
Proof. unfold Slice. cbn. destruct (0 <=? Z.of_nat (length r)) eqn:E; [|apply Z.leb_gt in E; lia]. by rewrite take_0. Qed.

Lemma whereLoop_firstMatch (filter visited : list (string * ArgValue))
    (pre rest : list Value) :
  Permutation filter visited ->
  forallb (comparable filter) rest = true ->
  whereLoop (AObject visited) (pre ++ rest) (Z.of_nat (length pre)) rest
  = Ok (firstMatch filter rest).
Proof.
  intros HP. revert pre. induction rest as [|element rest IH]; intros pre Hc.
  - apply Slice_empty.
  - cbn [forallb] in Hc. apply andb_true_iff in Hc as [Hc Hrest].
    cbn [whereLoop asMap rbind].
    rewrite filterLoop_matchesSome
      by (eapply comparable_Permutation; [exact HP|exact Hc]).
    cbn [rbind]. rewrite <- (matchesSome_Permutation filter visited) by exact HP.
    unfold firstMatch. cbn [find].
    destruct (matchesSome filter element) eqn:Hm.
    + apply Slice_one.
    + replace (pre ++ element :: rest)%list with ((pre ++ [element]) ++ rest)%list
        by (rewrite <- app_assoc; reflexivity).
      replace (Z.of_nat (length pre) + 1) with (Z.of_nat (length (pre ++ [element])%list))
        by (rewrite length_app; cbn; lia).
      apply IH. exact Hrest.
Qed.

(** Each element is compared on its own: whatever order [range] takes
    for it, the outcome is the same. *)
Lemma filterLoop_order_independent (filter visited : list (string * ArgValue))
    (element : Value) :
  Permutation filter visited ->
  comparable filter element = true ->
  filterLoop element visited = Ok (matchesSome filter element).
Proof.
  intros HP Hc. rewrite (matchesSome_Permutation filter visited element HP).
  apply filterLoop_matchesSome. exact (comparable_Permutation filter visited element HP Hc).
Qed.

(** The first match is an element that some member matches, after
    elements that no member matches. *)
Lemma firstMatch_position (filter : list (string * ArgValue)) (elems : list Value)
    (element : Value) :
  firstMatch filter elems = [element] <->
  exists before after,
    elems = (before ++ element :: after)%list
    /\ matchesSome filter element = true
    /\ forallb (fun e => negb (matchesSome filter e)) before = true.
Proof.
  unfold firstMatch. induction elems as [|e elems IH]; cbn [find].
  - split; [discriminate|]. intros (before & after & H & _). by destruct before.
  - destruct (matchesSome filter e) eqn:He.
    + split.
      * intros [= ->]. by exists [], elems.
      * intros ([|b before] & after & H & Hm & Hb).
        -- by injection H as ->.
        -- injection H as -> _. cbn [forallb] in Hb. rewrite He in Hb. discriminate.
    + rewrite IH. split.
      * intros (before & after & -> & Hm & Hb). exists (e :: before), after.
        cbn [forallb]. by rewrite He, Hb.
      * intros ([|b before] & after & H & Hm & Hb).
        -- injection H as -> _. congruence.
        -- injection H as -> ->. cbn [forallb] in Hb.
           apply andb_true_iff in Hb as [_ Hb]. eauto.
Qed.

Lemma firstMatch_none (filter : list (string * ArgValue)) (elems : list Value) :
  firstMatch filter elems = [] <->
  forallb (fun e => negb (matchesSome filter e)) elems = true.
Proof.
  unfold firstMatch. induction elems as [|e elems IH]; cbn [find forallb]; [done|].
  destruct (matchesSome filter e); cbn [negb andb]; [split; discriminate|exact IH].
Qed.

(** ** The window of 'skip' and 'limit' *)

Lemma Min_min (x y : Z) : Min x y = Z.min x y.
Proof. unfold Min. destruct (x <? y) eqn:E; [apply Z.ltb_lt in E|apply Z.ltb_ge in E]; lia. Qed.

Lemma wrap64_small (z : Z) : - 2 ^ 63 <= z < 2 ^ 63 -> wrap64 z = z.
Proof. intros H. unfold wrap64. rewrite Z.mod_small; lia. Qed.

Lemma Slice_in_bounds (r : list Value) (i j : Z) :
  0 <= i <= j -> j <= Z.of_nat (length r) ->
  Slice r i j = Ok (subCollection r i j).
Proof.
  intros Hi Hj. unfold Slice.
  replace ((0 <=? i) && (i <=? j) && (j <=? Z.of_nat (length r)))%bool with true; [reflexivity|].
  symmetry. rewrite !andb_true_iff, !Z.leb_le. lia.
Qed.

Lemma skipLimit_window (args : gmap string Arg) (elems : list Value)
    (skip limit : option Z) :
  args !! "skip" = (fun s => AScalar (AInt s)) <$> skip ->
  args !! "limit" = (fun l => AScalar (AInt l)) <$> limit ->
  (forall s, skip = Some s -> 0 <= s /\ elems <> []) ->
  (forall l, limit = Some l ->
     0 <= l /\ windowStart skip (Z.of_nat (length elems)) + l < 2 ^ 63) ->
  skipLimit args elems
  = Ok (subCollection elems
          (windowStart skip (Z.of_nat (length elems)))
          (windowEnd limit (windowStart skip (Z.of_nat (length elems)))
             (Z.of_nat (length elems)))).
Proof.
  intros Hs Hl Hskip Hlimit. unfold skipLimit. rewrite Hs, Hl.
  assert (Hlen : elems <> [] -> 1 <= Z.of_nat (length elems)).
  { destruct elems; [congruence|cbn; lia]. }
  destruct skip as [s|], limit as [l|]; cbn [fmap option_fmap option_map asInt rbind windowStart windowEnd];
    rewrite ?Min_min.
  - destruct (Hskip s eq_refl) as [? ?%Hlen], (Hlimit l eq_refl) as [? Hb].
    cbn [windowStart] in Hb. rewrite wrap64_small by lia. apply Slice_in_bounds; lia.
  - destruct (Hskip s eq_refl) as [? ?%Hlen]. apply Slice_in_bounds; lia.
  - destruct (Hlimit l eq_refl) as [? Hb]. cbn [windowStart] in Hb.
    rewrite wrap64_small by lia. apply Slice_in_bounds; lia.
  - apply Slice_in_bounds; lia.
Qed.

(** ** Field resolution *)

Section ResolveProperties.

Variable Call : nat -> option Value -> result (option Value * option error).

(** C8. The declared type of a member of any of the ten integer types is
    the numeric scalar [graphql.Float]; its resolution returns the float64
    of the stored number for every number, with no error and no guard; for
    a magnitude up to 2^53 that float64 is the number itself, and at
    2^53 + 1, a 64-bit value, it is not. *)
Theorem integer_member_coerced_to_float64
    (structFieldName typeName : string) (src : option Value)
    (args : gmap string Arg) (v : Value) (z : Z) :
  FieldByName src structFieldName = Ok (Some v) ->
  integerValue v = Some z ->
  getBasicOutput (reflect.TPlain typeName (ValueKind (Some v)))
    = Some (graphql.OScalar graphql.Float)
  /\ Resolve Call structFieldName (ValueKind (Some v))
       {| Source := src; ArgsOf := args |}
     = Ok (Some (VFloat64 (float64_of_Z z)), None)
  /\ (Z.abs z <= 2 ^ 53 -> SFexact (float64_of_Z z) z)
  /\ ~ SFexact (float64_of_Z (2 ^ 53 + 1)) (2 ^ 53 + 1).
Proof.
  intros Hr Hv. repeat split.
  - destruct v as [| t ? | t ? | | | | | | | | |]; try discriminate; destruct t; try discriminate; reflexivity.
  - unfold Resolve. cbn [Source ArgsOf]. rewrite Hr. cbn [rbind].
    destruct v as [| t ? | t ? | | | | | | | | |]; try discriminate;
      destruct t; try discriminate; cbn in Hv |- *;
      injection Hv as ->; reflexivity.
  - apply float64_of_Z_exact.
  - vm_compute. discriminate.
Qed.

(** C6. A computed member whose func value is nil resolves to the null
    value with no error; otherwise the function is called on the enclosing
    instance, and the value and the error it returns are returned as they
    are. *)
Theorem computed_member_resolution
    (structFieldName : string) (src : option Value) (args : gmap string Arg)
    (bound : option nat) :
  FieldByName src structFieldName = Ok (Some (VFunc bound)) ->
  (bound = None ->
   Resolve Call structFieldName reflect.Func {| Source := src; ArgsOf := args |}
   = Ok (None, None))
  /\ (forall f value err,
        bound = Some f -> Call f src = Ok (value, err) ->
        Resolve Call structFieldName reflect.Func {| Source := src; ArgsOf := args |}
        = Ok (value, err)).
Proof.
  intros Hr. unfold Resolve. cbn [Source ArgsOf]. rewrite Hr. cbn [rbind]. split.
  - intros ->. reflexivity.
  - intros f value err -> Hcall. rewrite Hcall. reflexivity.
Qed.

(** X28. The scan: with a 'where' argument supplied, and when no
    comparison panics (every member of the filter names exactly one member
    of every element), a slice of records resolves to the single-element
    collection of its first element that some member of the filter matches
    by the comparison of the closure itself, and to the empty collection
    when there is none, with no error in both cases; the order in which
    the members of the filter are visited does not change the result. *)
Theorem where_returns_first_match
    (structFieldName : string) (src : option Value) (args : gmap string Arg)
    (elems : list Value) (filter visited : list (string * ArgValue)) :
  FieldByName src structFieldName = Ok (Some (VSlice elems)) ->
  args !! "where" = Some (AObject visited) ->
  Permutation filter visited ->
  forallb (comparable filter) elems = true ->
  Resolve Call structFieldName reflect.Slice {| Source := src; ArgsOf := args |}
  = Ok (Some (VSlice (firstMatch filter elems)), None).
Proof.
  intros Hr Hw HP Hc. unfold Resolve. cbn [Source ArgsOf].
  rewrite Hr. cbn [rbind Elems]. rewrite Hw.
  pose proof (whereLoop_firstMatch filter visited [] elems HP Hc) as Hscan.
  change (Z.of_nat (length [])) with 0 in Hscan.
  cbn [app] in Hscan. rewrite Hscan. reflexivity.
Qed.

(** C3, as amended. Without a 'where' argument, a member that holds a
    slice resolves to the sub-collection from start to end, start being 0
    or, with 'skip', min(skip, length - 1), and end being the length or,
    with 'limit', min(start + limit, length); this for non-negative 'skip'
    and 'limit' with start + limit in the range of [int], and, when 'skip'
    is supplied, for a slice that is not empty. *)
Theorem skip_limit_window
    (structFieldName : string) (src : option Value) (args : gmap string Arg)
    (elems : list Value) (skip limit : option Z) :
  FieldByName src structFieldName = Ok (Some (VSlice elems)) ->
  args !! "where" = None ->
  args !! "skip" = (fun s => AScalar (AInt s)) <$> skip ->
  args !! "limit" = (fun l => AScalar (AInt l)) <$> limit ->
  (forall s, skip = Some s -> 0 <= s /\ elems <> []) ->
  (forall l, limit = Some l ->
     0 <= l /\ windowStart skip (Z.of_nat (length elems)) + l < 2 ^ 63) ->
  Resolve Call structFieldName reflect.Slice {| Source := src; ArgsOf := args |}
  = Ok (Some (VSlice
                (subCollection elems
                   (windowStart skip (Z.of_nat (length elems)))
                   (windowEnd limit (windowStart skip (Z.of_nat (length elems)))
                      (Z.of_nat (length elems))))),
        None).
Proof.
  intros Hr Hw Hs Hl Hskip Hlimit. unfold Resolve. cbn [Source ArgsOf].
  rewrite Hr. cbn [rbind Elems]. rewrite Hw.
  rewrite (skipLimit_window args elems skip limit Hs Hl Hskip Hlimit). reflexivity.
Qed.

Lemma resolve_time (structFieldName : string) (src : option Value)
    (args : gmap string Arg) (t : Time) :
  FieldByName src structFieldName = Ok (Some (VTime t)) ->
  Resolve Call structFieldName reflect.Struct {| Source := src; ArgsOf := args |}
  = Ok (Some (VFloat64 (float64_of_Z (UnixMilli t))), None).
Proof.
  intros Hr. unfold Resolve. cbn [Source ArgsOf]. rewrite Hr. reflexivity.
Qed.

End ResolveProperties.

(** ** Schema construction *)

Lemma create_unfold (t : reflect.rtype) (st : BuildState) :
  createGraphQlFieldHierarchy t st =
  match typesMap st !! reflect.Name t with
  | Some knownType => Ok (fst knownType, snd knownType, st)
  | None =>
      if is_typeTime t then Ok (Some (graphql.OScalar graphql.Float), ∅, st)
      else
        match t with
        | reflect.TFunc _ outs =>
            match outs with
            | [] => Panic "reflect: Out index out of range"
            | returnType :: _ =>
                if reflect.Kind_eqb (reflect.KindOf returnType) reflect.Interface
                then Ok (None, ∅, st)
                else createGraphQlFieldHierarchy returnType st
            end
        | reflect.TStruct _ name sfs =>
            let* (fields, st') := memberLoop createGraphQlFieldHierarchy sfs ∅ st in
            let '(o, st'') :=
              NewObject {| graphql.ObjName := name; graphql.ObjFields := fields |} st' in
            Ok (Some (graphql.OObject o), fields,
                setTypesMap st'' name (Some (graphql.OObject o), fields))
        | reflect.TList _ _ elem =>
            let* (nt, fields, st') := createGraphQlFieldHierarchy elem st in
            Ok (Some (graphql.OList nt), fields, st')
        | reflect.TPlain _ _ => Ok (getBasicOutput t, ∅, st)
        end
  end.
Proof. destruct t; reflexivity. Qed.

Lemma create_cache_hit (t : reflect.rtype) (st : BuildState)
    (knownType : option graphql.Output * graphql.Fields) :
  typesMap st !! reflect.Name t = Some knownType ->
  createGraphQlFieldHierarchy t st = Ok (fst knownType, snd knownType, st).
Proof. intros H. rewrite create_unfold, H. reflexivity. Qed.

Lemma create_typeTime (st : BuildState) :
  typesMap st !! "Time" = None ->
  createGraphQlFieldHierarchy typeTime st
  = Ok (Some (graphql.OScalar graphql.Float), ∅, st).
Proof. intros H. rewrite create_unfold. cbn [reflect.Name typeTime]. rewrite H. reflexivity. Qed.

Lemma create_omitted (t : reflect.rtype) (st : BuildState) :
  omittedType t = true ->
  typesMap st !! reflect.Name t = None ->
  createGraphQlFieldHierarchy t st = Ok (None, ∅, st).
Proof.
  intros Ho Hmiss. rewrite create_unfold, Hmiss.
  destruct t as [n k|n a e|n [|returnType outs]|p n sfs]; try discriminate; cbn in Ho |- *.
  - destruct (getBasicOutput (reflect.TPlain n k)); [discriminate|reflexivity].
  - rewrite Ho. reflexivity.
Qed.

(** A func type without a result is no such type: [t.Out(0)] panics. *)
Lemma create_func_without_result (name : string) (st : BuildState) :
  typesMap st !! name = None ->
  createGraphQlFieldHierarchy (reflect.TFunc name []) st
  = Panic "reflect: Out index out of range".
Proof. intros H. rewrite create_unfold. cbn [reflect.Name]. rewrite H. reflexivity. Qed.

Lemma memberStep_omitted (structFieldName : string) (t : reflect.rtype)
    (fields : graphql.Fields) (st : BuildState) :
  omittedType t = true ->
  typesMap st !! reflect.Name t = None ->
  memberStep createGraphQlFieldHierarchy (structFieldName, t) fields st = Ok (fields, st).
Proof.
  intros Ho Hmiss. unfold memberStep. cbn [fst snd].
  rewrite (create_omitted t st Ho Hmiss). reflexivity.
Qed.

Lemma memberLoop_app (create : reflect.rtype -> BuildState ->
      result (option graphql.Output * graphql.Fields * BuildState))
    (before after : list (string * reflect.rtype))
    (fields : graphql.Fields) (st : BuildState) :
  memberLoop create (before ++ after) fields st =
  let* (fields', st') := memberLoop create before fields st in
  memberLoop create after fields' st'.
Proof.
  revert fields st. induction before as [|m before IH]; intros fields st; [reflexivity|].
  cbn [app memberLoop]. destruct (memberStep create m fields st) as [[f1 st1]|msg]; [|reflexivity].
  cbn [rbind]. apply IH.
Qed.


(** ** Argument synthesis *)

Lemma fold_filterStep_lookup (vs : list (string * reflect.rtype))
    (acc : gmap string graphql.Output) (k : string) (o : graphql.Output) :
  fold_left filterStep vs acc !! k = Some o ->
  acc !! k = Some o \/
  exists v, v ∈ vs /\ ToLower (fst v) = k /\ getBasicOutput (snd v) = Some o.
Proof.
  revert acc. induction vs as [|v vs IH]; intros acc H; [by left|].
  cbn [fold_left] in H. apply IH in H as [H|(w & Hw & Hk & Ho)].
  - unfold filterStep in H. destruct (getBasicOutput (snd v)) as [t|] eqn:Ht; [|by left].
    destruct (decide (ToLower (fst v) = k)) as [<-|Hne].
    + rewrite lookup_insert_eq in H. injection H as ->. right. exists v. split; [left|done].
    + rewrite lookup_insert_ne in H by done. by left.
  - right. exists w. split; [by right|done].
Qed.

Lemma fold_filterStep_keeps (vs : list (string * reflect.rtype))
    (acc : gmap string graphql.Output) (k : string) :
  is_Some (acc !! k) -> is_Some (fold_left filterStep vs acc !! k).
Proof.
  revert acc. induction vs as [|v vs IH]; intros acc H; [done|].
  cbn [fold_left]. apply IH. unfold filterStep.
  destruct (getBasicOutput (snd v)) as [t|]; [|done].
  destruct (decide (ToLower (fst v) = k)) as [<-|Hne].
  - rewrite lookup_insert_eq. eauto.
  - by rewrite lookup_insert_ne.
Qed.

Lemma fold_filterStep_member (vs : list (string * reflect.rtype))
    (acc : gmap string graphql.Output) (v : string * reflect.rtype) :
  v ∈ vs -> is_Some (getBasicOutput (snd v)) ->
  is_Some (fold_left filterStep vs acc !! ToLower (fst v)).
Proof.
  revert acc. induction vs as [|w vs IH]; intros acc Hin [o Ho]; [by apply elem_of_nil in Hin|].
  cbn [fold_left]. apply elem_of_cons in Hin as [<-|Hin].
  - apply fold_filterStep_keeps. unfold filterStep. rewrite Ho, lookup_insert_eq. eauto.
  - apply IH; eauto.
Qed.

Lemma filterFields_members (vs : list (string * reflect.rtype)) (k : string) :
  is_Some (filterFields vs !! k) <->
  exists v, v ∈ vs /\ ToLower (fst v) = k /\ is_Some (getBasicOutput (snd v)).
Proof.
  split.
  - intros [o Ho]. apply fold_filterStep_lookup in Ho as [Ho|(v & ? & ? & ?)].
    + by rewrite lookup_empty in Ho.
    + exists v. eauto.
  - intros (v & Hin & <- & Ho). by apply fold_filterStep_member.
Qed.

Lemma filterFields_typed (vs : list (string * reflect.rtype)) (k : string)
    (o : graphql.Output) :
  filterFields vs !! k = Some o ->
  exists v, v ∈ vs /\ ToLower (fst v) = k /\ getBasicOutput (snd v) = Some o.
Proof.
  intros Ho. apply fold_filterStep_lookup in Ho as [Ho|?]; [|done].
  by rewrite lookup_empty in Ho.
Qed.

Lemma subfieldArgs_lookup (subfields : graphql.Fields) (k : string) :
  subfieldArgs subfields !! k = subfields !! k ≫= subfieldArg.
Proof. unfold subfieldArgs. apply lookup_omap. Qed.

Lemma synthArgs_other (structFieldName : string) (t : reflect.rtype)
    (subfields : graphql.Fields) (fm : gmap string graphql.ArgumentConfig) :
  reflect.KindOf t <> reflect.Slice -> reflect.KindOf t <> reflect.Array ->
  synthArgs structFieldName t subfields fm = Ok (subfieldArgs subfields, fm).
Proof.
  intros Hs Ha. unfold synthArgs. destruct (reflect.KindOf t); congruence.
Qed.

Lemma synthArgs_records (structFieldName name : string) (isArray : bool)
    (elem : reflect.rtype) (subfields : graphql.Fields)
    (fm : gmap string graphql.ArgumentConfig) :
  reflect.KindOf elem = reflect.Struct ->
  let filterShape :=
    default {| graphql.ArgType :=
                 graphql.InObject (ToLower structFieldName)
                   (filterFields (reflect.VisibleFields elem)) |}
            (fm !! structFieldName) in
  synthArgs structFieldName (reflect.TList name isArray elem) subfields fm
  = Ok (<["where" := filterShape]> (subfieldArgs subfields),
        <[structFieldName := filterShape]> fm).
Proof.
  intros Hk. unfold synthArgs. cbn [reflect.KindOf Elem rbind]. rewrite Hk.
  destruct isArray; cbn [rbind reflect.Kind_eqb];
    destruct (fm !! structFieldName) as [c|] eqn:E; cbn [default];
    rewrite ?(insert_id fm structFieldName c E); reflexivity.
Qed.

Lemma synthArgs_scalars (structFieldName name : string) (isArray : bool)
    (elem : reflect.rtype) (subfields : graphql.Fields)
    (fm : gmap string graphql.ArgumentConfig) :
  reflect.KindOf elem <> reflect.Struct ->
  synthArgs structFieldName (reflect.TList name isArray elem) subfields fm
  = Ok (<["limit" := intArg]> (<["skip" := intArg]> (subfieldArgs subfields)), fm).
Proof.
  intros Hk. unfold synthArgs. cbn [reflect.KindOf Elem rbind].
  destruct (reflect.Kind_eqb (reflect.KindOf elem) reflect.Struct) eqn:E.
  - destruct (reflect.KindOf elem); discriminate || congruence.
  - destruct isArray; reflexivity.
Qed.

(** The members of a collection of scalars bring no field map. *)
Lemma create_scalar_collection (name elemName : string) (isArray : bool)
    (k : reflect.Kind) (st : BuildState) :
  typesMap st !! name = None -> typesMap st !! elemName = None ->
  createGraphQlFieldHierarchy
    (reflect.TList name isArray (reflect.TPlain elemName k)) st
  = Ok (Some (graphql.OList (getBasicOutput (reflect.TPlain elemName k))), ∅, st).
Proof.
  intros Hn He. rewrite create_unfold. cbn [reflect.Name is_typeTime]. rewrite Hn.
  rewrite create_unfold. cbn [reflect.Name is_typeTime]. rewrite He. reflexivity.
Qed.

(** The field of a kept member carries the arguments of [synthArgs]. *)
Lemma memberStep_kept (structFieldName : string) (t : reflect.rtype)
    (fields subfields : graphql.Fields) (st st1 : BuildState)
    (ty : graphql.Output) (args fm : gmap string graphql.ArgumentConfig) :
  createGraphQlFieldHierarchy t st = Ok (Some ty, subfields, st1) ->
  synthArgs structFieldName t subfields (filterMap st1) = Ok (args, fm) ->
  memberStep createGraphQlFieldHierarchy (structFieldName, t) fields st
  = Ok (<[ToLower structFieldName :=
            {| graphql.FieldName := structFieldName;
               graphql.FieldType := Some ty;
               graphql.Args := args;
               graphql.Resolve :=
                 graphql.MemberResolve structFieldName (reflect.KindOf t) |}]> fields,
        withFilterMap st1 fm).
Proof.
  intros Hc Ha. unfold memberStep. cbn [fst snd]. rewrite Hc. cbn [rbind].
  rewrite Ha. reflexivity.
Qed.

Lemma withFilterMap_same (st : BuildState) : withFilterMap st (filterMap st) = st.
Proof. by destruct st. Qed.

(** The field of a member that is a collection of scalars: the list of
    the scalar, and the arguments 'skip' and 'limit' only. *)
Lemma scalar_collection_member (structFieldName name elemName : string)
    (isArray : bool) (k : reflect.Kind) (fields : graphql.Fields) (st : BuildState) :
  typesMap st !! name = None -> typesMap st !! elemName = None ->
  reflect.plain k = true ->
  let t := reflect.TList name isArray (reflect.TPlain elemName k) in
  memberStep createGraphQlFieldHierarchy (structFieldName, t) fields st
  = Ok (<[ToLower structFieldName :=
            {| graphql.FieldName := structFieldName;
               graphql.FieldType := Some (graphql.OList (getBasicOutput (reflect.TPlain elemName k)));
               graphql.Args := <["limit" := intArg]> (<["skip" := intArg]> ∅);
               graphql.Resolve :=
                 graphql.MemberResolve structFieldName (reflect.KindOf t) |}]> fields,
        st).
Proof.
  intros Hn He Hk t.
  rewrite (memberStep_kept structFieldName t fields ∅ st st
             (graphql.OList (getBasicOutput (reflect.TPlain elemName k)))
             (<["limit" := intArg]> (<["skip" := intArg]> ∅)) (filterMap st)).
  - by rewrite withFilterMap_same.
  - apply create_scalar_collection; assumption.
  - unfold t. rewrite synthArgs_scalars; [reflexivity|].
    cbn [reflect.KindOf]. by destruct k.
Qed.

(** C5, as amended. A kept member is a member for whose type the build
    returns a type and a field map. Its field first receives one argument
    per scalar-typed entry of that field map, named and typed as the entry.
    On top of these, a member whose type is a collection of records
    receives the argument 'where': the shape memoized under the name of
    the member when there is one, and otherwise a new input shape, named
    after the lower-cased member name, whose members are exactly the
    scalar-typed members of the element type under their lower-cased names
    (it is attached whether or not there is such a member); a member whose
    type is a collection of anything else receives the integer arguments
    'skip' and 'limit'; a member of any other type receives nothing more.
    For a collection of scalars, when the cache has no entry under the
    name of the collection type or of the element type, the field map is
    empty and 'skip' and 'limit' are the only arguments. *)
Theorem argument_synthesis
    (structFieldName : string) (t : reflect.rtype) (ty : graphql.Output)
    (fields subfields : graphql.Fields) (st st1 : BuildState) :
  createGraphQlFieldHierarchy t st = Ok (Some ty, subfields, st1) ->
  let field args :=
    {| graphql.FieldName := structFieldName;
       graphql.FieldType := Some ty;
       graphql.Args := args;
       graphql.Resolve := graphql.MemberResolve structFieldName (reflect.KindOf t) |} in
  (forall k, subfieldArgs subfields !! k = subfields !! k ≫= subfieldArg)
  /\ (reflect.KindOf t <> reflect.Slice -> reflect.KindOf t <> reflect.Array ->
      memberStep createGraphQlFieldHierarchy (structFieldName, t) fields st
      = Ok (<[ToLower structFieldName := field (subfieldArgs subfields)]> fields, st1))
  /\ (forall name isArray elem,
        t = reflect.TList name isArray elem ->
        reflect.KindOf elem = reflect.Struct ->
        let filterShape :=
          default {| graphql.ArgType :=
                       graphql.InObject (ToLower structFieldName)
                         (filterFields (reflect.VisibleFields elem)) |}
                  (filterMap st1 !! structFieldName) in
        memberStep createGraphQlFieldHierarchy (structFieldName, t) fields st
        = Ok (<[ToLower structFieldName :=
                  field (<["where" := filterShape]> (subfieldArgs subfields))]> fields,
              withFilterMap st1 (<[structFieldName := filterShape]> (filterMap st1))))
  /\ (forall name isArray elem,
        t = reflect.TList name isArray elem ->
        reflect.KindOf elem <> reflect.Struct ->
        memberStep createGraphQlFieldHierarchy (structFieldName, t) fields st
        = Ok (<[ToLower structFieldName :=
                  field (<["limit" := intArg]>
                           (<["skip" := intArg]> (subfieldArgs subfields)))]> fields,
              st1))
  /\ (forall vs k,
        is_Some (filterFields vs !! k) <->
        exists v, v ∈ vs /\ ToLower (fst v) = k /\ is_Some (getBasicOutput (snd v)))
  /\ (forall vs k o,
        filterFields vs !! k = Some o ->
        exists v, v ∈ vs /\ ToLower (fst v) = k /\ getBasicOutput (snd v) = Some o)
  /\ (forall name elemName isArray k,
        t = reflect.TList name isArray (reflect.TPlain elemName k) ->
        typesMap st !! name = None -> typesMap st !! elemName = None ->
        reflect.plain k = true ->
        subfields = ∅ /\ st1 = st
        /\ ty = graphql.OList (getBasicOutput (reflect.TPlain elemName k))
        /\ memberStep createGraphQlFieldHierarchy (structFieldName, t) fields st
           = Ok (<[ToLower structFieldName :=
                     field (<["limit" := intArg]> (<["skip" := intArg]> ∅))]> fields,
                 st)).
Proof.
  intros Hc field.
  split; [apply subfieldArgs_lookup|].
  split.
  { intros Hs Ha.
    rewrite (memberStep_kept structFieldName t fields subfields st st1 ty
               (subfieldArgs subfields) (filterMap st1) Hc (synthArgs_other _ _ _ _ Hs Ha)).
    by rewrite withFilterMap_same. }
  split.
  { intros name isArray elem -> Hk filterShape.
    exact (memberStep_kept structFieldName _ fields subfields st st1 ty _ _ Hc
             (synthArgs_records structFieldName name isArray elem subfields
                (filterMap st1) Hk)). }
  split.
  { intros name isArray elem -> Hk.
    rewrite (memberStep_kept structFieldName _ fields subfields st st1 ty _ _ Hc
               (synthArgs_scalars structFieldName name isArray elem subfields
                  (filterMap st1) Hk)).
    by rewrite withFilterMap_same. }
  split; [apply filterFields_members|].
  split; [apply filterFields_typed|].
  intros name elemName isArray k -> Hn He Hp.
  pose proof (create_scalar_collection name elemName isArray k st Hn He) as Hs.
  rewrite Hs in Hc. injection Hc as <- <- <-.
  split; [reflexivity|]. split; [reflexivity|]. split; [reflexivity|].
  exact (scalar_collection_member structFieldName name elemName isArray k fields st Hn He Hp).
Qed.

(** X26. When the cache has no entry under the name of its type at the
    time the member is reached, a member whose type is a func with a first
    result of interface kind, or a type of a kind outside the table of
    [getBasicOutput], has no descriptor ([nil, nil], nothing registered);
    the member loop skips it, so that the record type is built as if the
    member were not there, and a record with this one member is built,
    with no field. *)
Theorem omitted_member_is_skipped
    (pkg name structFieldName : string) (t : reflect.rtype)
    (before after : list (string * reflect.rtype)) (st : BuildState) :
  omittedType t = true ->
  (forall fields st1,
     memberLoop createGraphQlFieldHierarchy before ∅ st = Ok (fields, st1) ->
     typesMap st1 !! reflect.Name t = None) ->
  (typesMap st !! reflect.Name t = None ->
   createGraphQlFieldHierarchy t st = Ok (None, ∅, st))
  /\ createGraphQlFieldHierarchy
       (reflect.TStruct pkg name (before ++ (structFieldName, t) :: after)) st
     = createGraphQlFieldHierarchy (reflect.TStruct pkg name (before ++ after)) st
  /\ (typesMap st !! name = None -> typesMap st !! reflect.Name t = None ->
      is_typeTime (reflect.TStruct pkg name [(structFieldName, t)]) = false ->
      exists st',
        createGraphQlFieldHierarchy
          (reflect.TStruct pkg name [(structFieldName, t)]) st
        = Ok (Some (graphql.OObject (length (objects st))), ∅, st')
        /\ objects st'
           = (objects st ++ [{| graphql.ObjName := name; graphql.ObjFields := ∅ |}])%list).
Proof.
  intros Ho Hmiss. split; [apply create_omitted; exact Ho|]. split.
  - rewrite !create_unfold. cbn [reflect.Name is_typeTime].
    destruct (typesMap st !! name); [reflexivity|].
    destruct (_ && _)%bool; [reflexivity|].
    rewrite !memberLoop_app.
    destruct (memberLoop createGraphQlFieldHierarchy before ∅ st) as [[f1 st1]|msg] eqn:E;
      [|reflexivity].
    cbn [rbind memberLoop]. rewrite memberStep_omitted by eauto. reflexivity.
  - intros Hn Ht Htime. rewrite create_unfold. cbn [reflect.Name]. rewrite Hn, Htime.
    cbn [memberLoop]. rewrite memberStep_omitted by assumption.
    cbn [rbind memberLoop NewObject]. eexists. split; reflexivity.
Qed.

(** C7. After a member of an unnamed record type, which is cached under
    the empty name, a member of pointer type and a member of func type
    whose first result is of interface kind, both unnamed and both of types
    with no descriptor, are not skipped: the lookup by name comes first and
    each gets a field whose type is the object of the unnamed record, with
    its arguments. Without the member of record type both are skipped. *)
Theorem omitted_member_is_kept_after_an_unnamed_record :
  omittedType tIntPtr = true /\ omittedType tAnyFunc = true
  /\ fieldType Bare "ptr" = None /\ fieldType Bare "any" = None
  /\ fieldType Box "inner" = Some (Some (graphql.OObject 0))
  /\ fieldType Box "ptr" = Some (Some (graphql.OObject 0))
  /\ fieldType Box "any" = Some (Some (graphql.OObject 0))
  /\ fieldArgs Box "ptr" ≫= (.!! "x")
     = Some {| graphql.ArgType := graphql.InOutput (graphql.OScalar graphql.Float) |}.
Proof. repeat split; vm_compute; reflexivity. Qed.

(** ** The type cache *)

Lemma preserves_refl names st : preserves names st st.
Proof. split; [done|]. split; [done|]. exists []. by rewrite app_nil_r. Qed.

Lemma preserves_trans n1 n2 st1 st2 st3 :
  preserves n1 st1 st2 -> preserves n2 st2 st3 -> preserves (n1 ++ n2) st1 st3.
Proof.
  intros (H1 & K1 & new1 & E1) (H2 & K2 & new2 & E2). split; [|split].
  - intros k Hk. rewrite H2, H1; [done| |]; intros ?; apply Hk; set_solver.
  - auto.
  - exists (new1 ++ new2)%list. rewrite E2, E1. by rewrite app_assoc.
Qed.

Lemma memberStep_state (m : string * reflect.rtype) (fields fields' : graphql.Fields)
    (st st' : BuildState) :
  memberStep createGraphQlFieldHierarchy m fields st = Ok (fields', st') ->
  exists o sub st1, createGraphQlFieldHierarchy (snd m) st = Ok (o, sub, st1)
    /\ typesMap st' = typesMap st1 /\ objects st' = objects st1.
Proof.
  unfold memberStep. destruct (createGraphQlFieldHierarchy (snd m) st) as [[[o sub] st1]|msg]; [|discriminate].
  cbn [rbind]. destruct o as [ty|].
  - destruct (synthArgs _ _ _ _) as [[args fm]|msg]; [|discriminate].
    cbn [rbind]. intros [= <- <-]. by exists (Some ty), sub, st1.
  - intros [= <- <-]. by exists None, sub, st1.
Qed.

Lemma preserves_eq names st st1 st' :
  preserves names st st1 -> typesMap st' = typesMap st1 -> objects st' = objects st1 ->
  preserves names st st'.
Proof. intros (H & K & E) Ht Ho. unfold preserves. rewrite Ht, Ho. done. Qed.

Lemma memberLoop_preserves (sfs : list (string * reflect.rtype)) :
  Forall (fun f => forall st o sub st',
            createGraphQlFieldHierarchy (snd f) st = Ok (o, sub, st') ->
            preserves (structNames (snd f)) st st') sfs ->
  forall fields st fields' st',
    memberLoop createGraphQlFieldHierarchy sfs fields st = Ok (fields', st') ->
    preserves (flat_map (fun f => structNames (snd f)) sfs) st st'.
Proof.
  induction 1 as [|m sfs Hm _ IH]; intros fields st fields' st' Hloop.
  - injection Hloop as <- <-. apply preserves_refl.
  - cbn [memberLoop] in Hloop.
    destruct (memberStep createGraphQlFieldHierarchy m fields st) as [[f1 s1]|msg] eqn:Hstep; [|discriminate].
    cbn [rbind] in Hloop.
    apply memberStep_state in Hstep as (o & sub & st1 & Hc & Ht & Ho).
    cbn [flat_map]. eapply preserves_trans; [|exact (IH _ _ _ _ Hloop)].
    eapply preserves_eq; [exact (Hm _ _ _ _ Hc)|done|done].
Qed.

Lemma create_preserves (t : reflect.rtype) :
  forall st o sub st',
    createGraphQlFieldHierarchy t st = Ok (o, sub, st') -> preserves (structNames t) st st'.
Proof.
  induction t as [name k|name isArray elem IH|name outs IH|pkg name sfs IH]
    using rtype_nested_ind; intros st o sub st'; rewrite create_unfold;
    (destruct (typesMap st !! _) as [known|] eqn:Hmiss;
     [intros [= <- <- <-]; apply preserves_refl|]).
  - cbn. intros [= <- <- <-]. apply preserves_refl.
  - cbn [is_typeTime]. destruct (createGraphQlFieldHierarchy elem st) as [[[nt f1] s1]|msg] eqn:E; [|discriminate].
    cbn [rbind]. intros [= <- <- <-]. exact (IH _ _ _ _ E).
  - cbn [is_typeTime]. destruct outs as [|returnType outs]; [discriminate|].
    destruct (reflect.Kind_eqb _ _); [intros [= <- <- <-]; apply preserves_refl|].
    intros E. apply Forall_cons in IH as [IH _]. exact (IH _ _ _ _ E).
  - destruct (is_typeTime _); [intros [= <- <- <-]; apply preserves_refl|].
    destruct (memberLoop createGraphQlFieldHierarchy sfs ∅ st) as [[f1 s1]|msg] eqn:E; [|discriminate].
    cbn [rbind NewObject]. intros [= <- <- <-].
    pose proof (memberLoop_preserves sfs IH _ _ _ _ E) as (H & K & new & Hnew).
    cbn [structNames]. split; [|split].
    + intros k Hk. cbn [setTypesMap typesMap].
      rewrite lookup_insert_ne by (intros ->; apply Hk; left).
      apply H. intros ?. apply Hk. by right.
    + intros k Hk. cbn [setTypesMap typesMap].
      destruct (decide (name = k)) as [->|Hne];
        [rewrite lookup_insert_eq; eauto|rewrite lookup_insert_ne by done; auto].
    + eexists. cbn [setTypesMap objects]. rewrite Hnew, <- app_assoc. reflexivity.
Qed.

Lemma memberLoop_invariant (sfs : list (string * reflect.rtype)) :
  Forall (fun f => forall st o sub st',
            wellNested (snd f) = true -> cacheInvariant st ->
            createGraphQlFieldHierarchy (snd f) st = Ok (o, sub, st') -> cacheInvariant st') sfs ->
  forallb (fun f => wellNested (snd f)) sfs = true ->
  forall fields st fields' st',
    cacheInvariant st ->
    memberLoop createGraphQlFieldHierarchy sfs fields st = Ok (fields', st') ->
    cacheInvariant st'.
Proof.
  induction 1 as [|m sfs Hm _ IH]; intros Hwn fields st fields' st' Hinv Hloop.
  - by injection Hloop as <- <-.
  - cbn [forallb] in Hwn. apply andb_true_iff in Hwn as [Hw Hwn].
    cbn [memberLoop] in Hloop.
    destruct (memberStep createGraphQlFieldHierarchy m fields st) as [[f1 s1]|msg] eqn:Hstep; [|discriminate].
    cbn [rbind] in Hloop.
    apply memberStep_state in Hstep as (o & sub & st1 & Hc & Ht & Ho).
    apply (IH Hwn _ _ _ _) in Hloop; [done|].
    pose proof (Hm _ _ _ _ Hw Hinv Hc) as Hinv1.
    unfold cacheInvariant, registeredNames in *. by rewrite Ht, Ho.
Qed.

(** The cache invariant: the names of the registered objects are distinct
    and each has its entry in the cache. A build keeps it on a type in
    which no record type has, below its members, a record type of its own
    name. *)
Lemma cache_invariant_well_nested (t : reflect.rtype) :
  forall st o sub st',
    wellNested t = true -> cacheInvariant st ->
    createGraphQlFieldHierarchy t st = Ok (o, sub, st') -> cacheInvariant st'.
Proof.
  induction t as [name k|name isArray elem IH|name outs IH|pkg name sfs IH]
    using rtype_nested_ind; intros st o sub st' Hwn Hinv; rewrite create_unfold;
    (destruct (typesMap st !! _) as [known|] eqn:Hmiss;
     [by intros [= <- <- <-]|]).
  - cbn. by intros [= <- <- <-].
  - cbn [is_typeTime]. destruct (createGraphQlFieldHierarchy elem st) as [[[nt f1] s1]|msg] eqn:E; [|discriminate].
    cbn [rbind]. intros [= <- <- <-]. exact (IH _ _ _ _ Hwn Hinv E).
  - cbn [is_typeTime]. destruct outs as [|returnType outs]; [discriminate|].
    destruct (reflect.Kind_eqb _ _); [by intros [= <- <- <-]|].
    intros E. apply Forall_cons in IH as [IH _]. exact (IH _ _ _ _ Hwn Hinv E).
  - destruct (is_typeTime _); [by intros [= <- <- <-]|].
    destruct (memberLoop createGraphQlFieldHierarchy sfs ∅ st) as [[f1 s1]|msg] eqn:E; [|discriminate].
    cbn [rbind NewObject]. intros [= <- <- <-].
    cbn [wellNested] in Hwn. apply andb_true_iff in Hwn as [Hfresh Hwn].
    pose proof (memberLoop_invariant sfs IH Hwn _ _ _ _ Hinv E) as [Hnd Hreg].
    pose proof (memberLoop_preserves sfs
                  (Forall_impl _ _ _ IH (fun f _ => create_preserves (snd f))) _ _ _ _ E)
      as (H & _ & _).
    cbn [reflect.Name] in Hmiss.
    assert (Hname : typesMap s1 !! name = None).
    { rewrite H; [exact Hmiss|]. intros Hin.
      apply negb_true_iff, not_true_iff_false in Hfresh. apply Hfresh.
      apply existsb_exists. exists name. split; [by apply list_elem_of_In|apply String.eqb_refl]. }
    unfold cacheInvariant, registeredNames in *. cbn [setTypesMap objects typesMap].
    rewrite fmap_app. cbn [fmap list_fmap graphql.ObjName]. split.
    + apply NoDup_app. split; [exact Hnd|]. split; [|apply NoDup_singleton].
      intros n Hn ->%list_elem_of_singleton. apply Hreg in Hn as [? Hn]. congruence.
    + intros n [Hn| ->%list_elem_of_singleton]%elem_of_app.
      * destruct (decide (name = n)) as [->|Hne];
          [rewrite lookup_insert_eq; eauto|rewrite lookup_insert_ne by done; auto].
      * rewrite lookup_insert_eq; eauto.
Qed.

(** In a build that starts from empty maps on such a type, no name is
    registered twice. *)
Lemma build_registers_each_name_once (t : reflect.rtype)
    (o : option graphql.Output) (fields : graphql.Fields) (st : BuildState) :
  wellNested t = true ->
  createGraphQlFieldHierarchy t emptyState = Ok (o, fields, st) ->
  NoDup (registeredNames st).
Proof.
  intros Hwn Hc.
  refine (proj1 (cache_invariant_well_nested t emptyState o fields st Hwn _ Hc)).
  split; [apply NoDup_nil_2|]. intros n Hn. by apply elem_of_nil in Hn.
Qed.

(** A record type that is built anew is registered under its name, with
    the object allocated for it. *)
Lemma create_struct_registered (pkg name : string)
    (sfs : list (string * reflect.rtype)) (st st' : BuildState)
    (o : option graphql.Output) (fields : graphql.Fields) :
  typesMap st !! name = None ->
  is_typeTime (reflect.TStruct pkg name sfs) = false ->
  createGraphQlFieldHierarchy (reflect.TStruct pkg name sfs) st = Ok (o, fields, st') ->
  typesMap st' !! name = Some (o, fields)
  /\ exists ptr, o = Some (graphql.OObject ptr)
       /\ objects st' !! ptr
          = Some {| graphql.ObjName := name; graphql.ObjFields := fields |}.
Proof.
  intros Hn Ht. rewrite create_unfold. cbn [reflect.Name]. rewrite Hn, Ht.
  destruct (memberLoop createGraphQlFieldHierarchy sfs ∅ st) as [[f1 st1]|msg];
    [|discriminate].
  cbn [rbind NewObject]. intros [= <- <- <-]. split.
  - cbn [setTypesMap typesMap]. apply lookup_insert_eq.
  - eexists. split; [reflexivity|]. cbn [setTypesMap objects].
    apply list_lookup_middle. reflexivity.
Qed.

(** A second occurrence of a type whose name is in the cache resolves to
    the registered pair, and registers nothing. *)
Lemma create_again (pkg name : string) (sfs : list (string * reflect.rtype))
    (st st' : BuildState) (o : option graphql.Output) (fields : graphql.Fields) :
  typesMap st !! name = None ->
  is_typeTime (reflect.TStruct pkg name sfs) = false ->
  createGraphQlFieldHierarchy (reflect.TStruct pkg name sfs) st = Ok (o, fields, st') ->
  createGraphQlFieldHierarchy (reflect.TStruct pkg name sfs) st' = Ok (o, fields, st').
Proof.
  intros Hn Ht Hc.
  destruct (create_struct_registered _ _ _ _ _ _ _ Hn Ht Hc) as [Hreg _].
  exact (create_cache_hit (reflect.TStruct pkg name sfs) st' (o, fields) Hreg).
Qed.

(** C4. Two members of one record type share the object registered for
    it, as the comment on the cache says. A record type is registered only
    after its members are built: a record type [Config] with a member of
    another record type [Config] registers two objects under that one name,
    and the entry of the inner one is overwritten. *)
Theorem same_name_registered_twice :
  (exists fields st,
     createGraphQlFieldHierarchy Foo emptyState
     = Ok (Some (graphql.OObject 1), fields, st)
     /\ registeredNames st = ["FooStruct"; "Foo"]
     /\ graphql.FieldType <$> fields !! "x" = Some (Some (graphql.OObject 0))
     /\ graphql.FieldType <$> fields !! "y" = Some (Some (graphql.OObject 0)))
  /\ (exists fields st,
       createGraphQlFieldHierarchy appConfig emptyState
       = Ok (Some (graphql.OObject 1), fields, st)
       /\ registeredNames st = ["Config"; "Config"]
       /\ graphql.FieldType <$> fields !! "db" = Some (Some (graphql.OObject 0))
       /\ fst <$> typesMap st !! "Config" = Some (Some (graphql.OObject 1))).
Proof.
  split.
  - destruct (createGraphQlFieldHierarchy Foo emptyState) as [[[o fields] st]|msg] eqn:E;
      vm_compute in E; [|discriminate].
    injection E as <- <- <-. do 2 eexists. split; [reflexivity|].
    repeat split; vm_compute; reflexivity.
  - destruct (createGraphQlFieldHierarchy appConfig emptyState) as [[[o fields] st]|msg] eqn:E;
      vm_compute in E; [|discriminate].
    injection E as <- <- <-. do 2 eexists. split; [reflexivity|].
    repeat split; vm_compute; reflexivity.
Qed.

(** ** The timestamp type *)

(** X27. [time.Time] is built as the numeric scalar, with no field map and
    nothing registered, when no entry named "Time" is in the cache; a
    member that holds a timestamp resolves to the float64 of its
    milliseconds since the epoch. *)
Theorem timestamp_special_cased
    (Call : nat -> option Value -> result (option Value * option error))
    (structFieldName : string) (src : option Value) (args : gmap string Arg)
    (t : Time) (st : BuildState) :
  typesMap st !! "Time" = None ->
  FieldByName src structFieldName = Ok (Some (VTime t)) ->
  createGraphQlFieldHierarchy typeTime st
    = Ok (Some (graphql.OScalar graphql.Float), ∅, st)
  /\ Resolve Call structFieldName reflect.Struct {| Source := src; ArgsOf := args |}
     = Ok (Some (VFloat64 (float64_of_Z (UnixMilli t))), None).
Proof.
  intros Hmiss Hr. split; [exact (create_typeTime st Hmiss)|].
  exact (resolve_time Call structFieldName src args t Hr).
Qed.

(** C9. The special case does not reach a collection of timestamps: the
    element type is the numeric scalar, but the 'where' shape of the
    member registers the members [wall] and [ext] of [time.Time], and the
    closure returns the timestamps as they are, where a member that holds
    one timestamp resolves to its milliseconds. Nor does it reach a
    timestamp met after a record type named [Time] of another package: the
    lookup by name comes first and the member gets the object of that
    record. *)
Theorem timestamp_is_not_special_cased_in_a_collection :
  fieldType Log "times" = Some (Some (graphql.OList (Some (graphql.OScalar graphql.Float))))
  /\ fieldArgs Log "times" ≫= (.!! "where")
     = Some {| graphql.ArgType :=
                 graphql.InObject "times"
                   {[ "wall" := graphql.OScalar graphql.Float;
                      "ext" := graphql.OScalar graphql.Float ]} |}
  /\ Resolve noCall "Times" reflect.Slice {| Source := log; ArgsOf := ∅ |}
     = Ok (Some (VSlice [VTime newYear]), None)
  /\ Resolve noCall "At" reflect.Struct {| Source := log; ArgsOf := ∅ |}
     = Ok (Some (VFloat64 (float64_of_Z 1704067200000)), None)
  /\ fieldType Rec "stamp" = Some (Some (graphql.OObject 0))
  /\ fieldType Rec "at" = Some (Some (graphql.OObject 0)).
Proof. repeat split; vm_compute; reflexivity. Qed.

(** ** The comparison of a numeric filter member *)

Lemma SFeqb_finite_refl (s : bool) (m : positive) (e : Z) :
  SFeqb (S754_finite s m e) (S754_finite s m e) = true.
Proof.
  unfold SFeqb, SFcompare.
  change IntDef.Z.compare with Z.compare. rewrite Z.compare_refl.
  change (PosDef.Pos.compare_cont Eq m m) with (Pos.compare m m).
  rewrite Pos.compare_refl. destruct s; reflexivity.
Qed.

(** On the types the chain of assertions lists, equal numbers match (here
    for the numbers below 2^53, which every [int8] and [int32] is). *)
Lemma numericMatch_listed (t : IntType) (z : Z) :
  t <> int16 -> Z.abs z < 2 ^ 53 ->
  numericMatch (float64_of_Z z) (Some (VInt t z)) = true.
Proof.
  intros Ht Hz.
  assert (Hrefl : SFeqb (float64_of_Z z) (float64_of_Z z) = true).
  { unfold float64_of_Z, binary_normalize. destruct z as [|m|m]; [reflexivity| |].
    - destruct (binary_round_small false m) as (m' & e & -> & _); [lia|].
      apply SFeqb_finite_refl.
    - destruct (binary_round_small true m) as (m' & e & -> & _); [lia|].
      apply SFeqb_finite_refl. }
  destruct t; try congruence; exact Hrefl.
Qed.

(** C2. The comparison of a float64 filter value lists [float64], [int],
    [int8], [int32] and [int64]: a member of type [int16], of any unsigned
    type or of type [float32] never matches, although its declared type is
    the numeric scalar and the filter shape has a member for it. The
    number 2 in an [int] matches the filter value 2, the same number in an
    [int16] does not, and the 'where' filter then finds no element. *)
Theorem numeric_filter_misses_widths :
  SFexact (float64_of_Z 2) 2
  /\ filterMatch (AFloat (float64_of_Z 2)) (Some (VInt int 2)) = Ok true
  /\ filterMatch (AFloat (float64_of_Z 2)) (Some (VInt int16 2)) = Ok false
  /\ (forall fv z, filterMatch (AFloat fv) (Some (VInt int16 z)) = Ok false)
  /\ (forall fv t z, filterMatch (AFloat fv) (Some (VUint t z)) = Ok false)
  /\ (forall fv f, filterMatch (AFloat fv) (Some (VFloat32 f)) = Ok false)
  /\ filterFields [("Age", reflect.TPlain "int16" reflect.Int16)] !! "age"
     = Some (graphql.OScalar graphql.Float)
  /\ Resolve noCall "Pets" reflect.Slice
       {| Source := pets (VInt int 2);
          ArgsOf := {[ "where" := AObject [("age", AFloat (float64_of_Z 2))] ]} |}
     = Ok (Some (VSlice [VStruct "main" "Pet" [("Age", VInt int 2)]]), None)
  /\ Resolve noCall "Pets" reflect.Slice
       {| Source := pets (VInt int16 2);
          ArgsOf := {[ "where" := AObject [("age", AFloat (float64_of_Z 2))] ]} |}
     = Ok (Some (VSlice []), None).
Proof.
  split; [vm_compute; reflexivity|].
  split; [vm_compute; reflexivity|].
  split; [vm_compute; reflexivity|].
  split; [reflexivity|].
  split; [reflexivity|].
  split; [reflexivity|].
  split; [vm_compute; reflexivity|].
  split; vm_compute; reflexivity.
Qed.

(** C1. A collection holds one record whose member [Age] is the [int16]
    2, and the filter is [{age: 2}], which arrives as the float64 2: the
    member of the filter equals the same-named member of the element, so
    that the element is the first one the specification asks for, and the
    closure returns the empty collection. It returns the element when the
    member is an [int]. *)
Theorem where_misses_an_equal_member :
  let pet age := VStruct "main" "Pet" [("Age", age)] in
  let filter := [("age", AFloat (float64_of_Z 2))] in
  SFexact (float64_of_Z 2) 2
  /\ memberNamed (pet (VInt int16 2)) "age" = Some (VInt int16 2)
  /\ specEquals (AFloat (float64_of_Z 2)) (VInt int16 2) = true
  /\ specFirstMatch filter [pet (VInt int16 2)] = [pet (VInt int16 2)]
  /\ Resolve noCall "Pets" reflect.Slice
       {| Source := pets (VInt int16 2);
          ArgsOf := {[ "where" := AObject filter ]} |}
     = Ok (Some (VSlice []), None)
  /\ specFirstMatch filter [pet (VInt int 2)] = [pet (VInt int 2)]
  /\ Resolve noCall "Pets" reflect.Slice
       {| Source := pets (VInt int 2);
          ArgsOf := {[ "where" := AObject filter ]} |}
     = Ok (Some (VSlice [pet (VInt int 2)]), None).
Proof.
  intros pet filter. repeat split; vm_compute; reflexivity.
Qed.

(** ** The top-level call *)

Section TopLevelProperties.

Variable D : Type.
Variable Schema : Type.
Variable NewSchema : graphql.SchemaConfig -> Schema * option error.
Variable Do : Schema -> string -> graphql.Result D.
Variable MarshalIndent :
  option (graphql.Result D) -> string -> string -> string * option error.

Lemma executeQuery_first_error (query : string) (schema : Schema)
    (e : graphql.FormattedError) (rest : list graphql.FormattedError) :
  graphql.Errors (Do schema query) = e :: rest ->
  executeQuery Do query schema = (None, graphql.OriginalError e).
Proof. intros H. unfold executeQuery. rewrite H. reflexivity. Qed.

Lemma executeQuery_no_error (query : string) (schema : Schema) :
  graphql.Errors (Do schema query) = [] ->
  executeQuery Do query schema = (Some (Do schema query), None).
Proof. intros H. unfold executeQuery. rewrite H. reflexivity. Qed.

(** C10. Once the schema is built, a result of the collaborator with
    errors makes the call fail with the original error of the first one,
    whatever the others are; a result with no error is serialized with an
    empty prefix and an indentation of two spaces, and the bytes are
    returned with no error (an error of the serializer itself is returned
    in their place). *)
Theorem first_error_only_is_surfaced
    (rootField : string) (T : reflect.rtype) (o : option Value) (query : string)
    (typ : option graphql.Output) (fields : graphql.Fields) (st : BuildState)
    (schema : Schema) :
  createGraphQlFieldHierarchy T emptyState = Ok (typ, fields, st) ->
  NewSchema (rootSchemaConfig rootField typ o st) = (schema, None) ->
  (forall e rest err,
     graphql.Errors (Do schema query) = e :: rest ->
     graphql.OriginalError e = Some err ->
     QueryStructViaGraphql NewSchema Do MarshalIndent rootField T o query
     = Ok (None, Some err))
  /\ (forall b,
        graphql.Errors (Do schema query) = [] ->
        MarshalIndent (Some (Do schema query)) "" "  " = (b, None) ->
        QueryStructViaGraphql NewSchema Do MarshalIndent rootField T o query
        = Ok (Some b, None))
  /\ (forall b err,
        graphql.Errors (Do schema query) = [] ->
        MarshalIndent (Some (Do schema query)) "" "  " = (b, Some err) ->
        QueryStructViaGraphql NewSchema Do MarshalIndent rootField T o query
        = Ok (None, Some err)).
Proof.
  intros Hc Hs. unfold QueryStructViaGraphql. rewrite Hc. cbn [rbind]. rewrite Hs.
  split; [|split].
  - intros e rest err He Ho. rewrite (executeQuery_first_error query schema e rest He).
    rewrite Ho. reflexivity.
  - intros b He Hm. rewrite (executeQuery_no_error query schema He).
    rewrite Hm. reflexivity.
  - intros b err He Hm. rewrite (executeQuery_no_error query schema He).
    rewrite Hm. reflexivity.
Qed.

End TopLevelProperties.

(** ** The properties at the example inputs *)

Lemma where_returns_first_match_witness :
  Resolve noCall "Cats" reflect.Slice
    {| Source := shelter;
       ArgsOf := {[ "where" := AObject [("name", AString "X");
                                        ("color", AString "Black")] ]} |}
  = Ok (Some (VSlice [cat "Bello" 2 "Black"]), None).
Proof.
  exact (where_returns_first_match noCall "Cats" shelter
           {[ "where" := AObject [("name", AString "X"); ("color", AString "Black")] ]}
           coloured
           [("color", AString "Black"); ("name", AString "X")]
           [("name", AString "X"); ("color", AString "Black")]
           eq_refl eq_refl (perm_swap _ _ _) eq_refl).
Defined.

(** C3, as stated, fails on the empty collection: with 'skip' supplied the
    start is min(skip, -1) = -1 and the closure panics. It fails as well
    for a negative 'skip', for a negative 'limit' after a 'skip', for a
    'limit' with which start + limit leaves the range of [int], and for a
    member of array kind. *)
Lemma skip_on_empty_collection_panics :
  windowStart (Some 0) (Z.of_nat (length (@nil Value))) = -1
  /\ Resolve noCall "Empty" reflect.Slice
       {| Source := shelter; ArgsOf := {[ "skip" := AScalar (AInt 0) ]} |}
     = Panic "reflect.Value.Slice: slice index out of bounds"
  /\ Resolve noCall "Tags" reflect.Slice
       {| Source := shelter; ArgsOf := {[ "skip" := AScalar (AInt (-1)) ]} |}
     = Panic "reflect.Value.Slice: slice index out of bounds"
  /\ Resolve noCall "Tags" reflect.Slice
       {| Source := shelter;
          ArgsOf := {[ "skip" := AScalar (AInt 3); "limit" := AScalar (AInt (-2)) ]} |}
     = Panic "reflect.Value.Slice: slice index out of bounds"
  /\ Resolve noCall "Tags" reflect.Slice
       {| Source := shelter;
          ArgsOf := {[ "skip" := AScalar (AInt 1);
                       "limit" := AScalar (AInt (2 ^ 63 - 1)) ]} |}
     = Panic "reflect.Value.Slice: slice index out of bounds"
  /\ exists msg,
       Resolve noCall "Grid" reflect.Array
         {| Source := Some (VStruct "main" "Board" [("Grid", VOpaque reflect.Array)]);
            ArgsOf := {[ "limit" := AScalar (AInt 1) ]} |}
       = Panic msg.
Proof.
  repeat split; try (vm_compute; reflexivity). eexists. vm_compute. reflexivity.
Qed.

Lemma skip_limit_window_witness :
  Resolve noCall "Tags" reflect.Slice
    {| Source := shelter;
       ArgsOf := {[ "skip" := AScalar (AInt 3); "limit" := AScalar (AInt 10) ]} |}
  = Ok (Some (VSlice [VString "d"; VString "e"]), None).
Proof.
  refine (skip_limit_window noCall "Tags" shelter
            {[ "skip" := AScalar (AInt 3); "limit" := AScalar (AInt 10) ]}
            [VString "a"; VString "b"; VString "c"; VString "d"; VString "e"]
            (Some 3) (Some 10) eq_refl eq_refl eq_refl eq_refl _ _).
  - intros s' [= <-]. split; [lia|discriminate].
  - intros l' [= <-]. cbn. lia.
Defined.

(** C5, as stated, fails on the sample types: the collection of records
    [Dogs] receives an argument [name] besides 'where', the collection
    [Crates] of records without a scalar member receives a 'where' with no
    member, and the member [Friend], which is no collection, receives an
    argument [age]. *)
Lemma argument_synthesis_counterexample :
  fieldArgs Kennel "dogs" ≫= (.!! "name")
    = Some {| graphql.ArgType := graphql.InOutput (graphql.OScalar graphql.String) |}
  /\ is_Some (fieldArgs Kennel "dogs" ≫= (.!! "where"))
  /\ fieldArgs Kennel "crates" ≫= (.!! "where")
     = Some {| graphql.ArgType := graphql.InObject "crates" ∅ |}
  /\ fieldArgs Dog "friend" ≫= (.!! "age")
     = Some {| graphql.ArgType := graphql.InOutput (graphql.OScalar graphql.Float) |}.
Proof.
  split; [vm_compute; reflexivity|].
  split; [vm_compute; eauto|].
  split; vm_compute; reflexivity.
Qed.

Lemma computed_member_resolution_witness :
  Resolve hates "Likes" reflect.Func {| Source := shelter; ArgsOf := ∅ |}
    = Ok (None, None)
  /\ Resolve hates "Hates" reflect.Func {| Source := shelter; ArgsOf := ∅ |}
     = Ok (Some (VSlice [cat "Hana" 1 "Gray"]), Some "it is Monday").
Proof.
  split.
  - exact (proj1 (computed_member_resolution hates "Likes" shelter ∅ None eq_refl)
             eq_refl).
  - exact (proj2 (computed_member_resolution hates "Hates" shelter ∅ (Some 0%nat) eq_refl)
             0%nat _ _ eq_refl eq_refl).
Defined.

Lemma omitted_member_is_skipped_witness :
  createGraphQlFieldHierarchy
    (reflect.TStruct "main" "Pet"
       [("Name", tString); ("Extra", tAnyFunc); ("Age", tInt)]) emptyState
  = createGraphQlFieldHierarchy
      (reflect.TStruct "main" "Pet" [("Name", tString); ("Age", tInt)]) emptyState.
Proof.
  refine (proj1 (proj2 (omitted_member_is_skipped "main" "Pet" "Extra" tAnyFunc
                          [("Name", tString)] [("Age", tInt)] emptyState eq_refl _))).
  intros fields st1 H. vm_compute in H. injection H as <- <-. reflexivity.
Defined.

Lemma integer_member_coerced_to_float64_witness :
  Resolve noCall "Count" reflect.Uint64 {| Source := shelter; ArgsOf := ∅ |}
  = Ok (Some (VFloat64 (float64_of_Z (2 ^ 53 + 1))), None).
Proof.
  exact (proj1 (proj2 (integer_member_coerced_to_float64 noCall "Count" "uint64"
                         shelter ∅ (VUint uint64 (2 ^ 53 + 1)) (2 ^ 53 + 1)
                         eq_refl eq_refl))).
Defined.

Lemma timestamp_special_cased_witness :
  createGraphQlFieldHierarchy typeTime emptyState
    = Ok (Some (graphql.OScalar graphql.Float), ∅, emptyState)
  /\ Resolve noCall "Born" reflect.Struct {| Source := shelter; ArgsOf := ∅ |}
     = Ok (Some (VFloat64 (float64_of_Z 1700000000123)), None).
Proof.
  destruct (timestamp_special_cased noCall "Born" shelter ∅
              {| unixSec := 1700000000; nsec := 123456789; loc := "Europe/Berlin" |}
              emptyState eq_refl eq_refl) as (Hc & Hr).
  split; [exact Hc|exact Hr].
Defined.

Lemma first_error_only_is_surfaced_witness :
  QueryStructViaGraphql acceptSchema twoErrors printIndent "cats"
    (reflect.TList "" false Cat) (Some (VSlice coloured)) "{cats{name}}"
    = Ok (None, Some "first")
  /\ QueryStructViaGraphql acceptSchema noErrors printIndent "cats"
       (reflect.TList "" false Cat) (Some (VSlice coloured)) "{cats{name}}"
     = Ok (Some "{  }", None).
Proof.
  destruct (createGraphQlFieldHierarchy (reflect.TList "" false Cat) emptyState)
    as [[[typ fields] st]|msg] eqn:E; [|vm_compute in E; discriminate].
  split.
  - refine (proj1 (first_error_only_is_surfaced unit graphql.SchemaConfig
                     acceptSchema twoErrors printIndent "cats"
                     (reflect.TList "" false Cat) (Some (VSlice coloured))
                     "{cats{name}}" typ fields st _ E eq_refl)
              _ _ "first" eq_refl eq_refl).
  - exact (proj1 (proj2 (first_error_only_is_surfaced unit graphql.SchemaConfig
                    acceptSchema noErrors printIndent "cats"
                    (reflect.TList "" false Cat) (Some (VSlice coloured))
                    "{cats{name}}" typ fields st _ E eq_refl))
             "{  }" eq_refl eq_refl).
Defined.

(** ** The scenarios of the specification *)

(** Filter semantics: of the two black records the first one only; a
    colour no record has gives the empty collection. *)
Example filter_first_black_only :
  Resolve noCall "Cats" reflect.Slice
    {| Source := shelter;
       ArgsOf := {[ "where" := AObject [("color", AString "Black")] ]} |}
  = Ok (Some (VSlice [cat "Bello" 2 "Black"]), None)
  /\ Resolve noCall "Cats" reflect.Slice
       {| Source := shelter;
          ArgsOf := {[ "where" := AObject [("color", AString "Green")] ]} |}
     = Ok (Some (VSlice []), None).
Proof. split; vm_compute; reflexivity. Qed.

(** A numeric filter member on an [int] member: the age 3 is Momo's. *)
Example filter_by_age :
  Resolve noCall "Cats" reflect.Slice
    {| Source := shelter;
       ArgsOf := {[ "where" := AObject [("age", AFloat (float64_of_Z 3))] ]} |}
  = Ok (Some (VSlice [cat "Momo" 3 "White"]), None).
Proof. vm_compute. reflexivity. Qed.

(** Pagination clamping on five elements: 'skip' at length - 1, at the
    length and beyond it all give the last element. *)
Example skip_clamps_to_last :
  forall skip, In skip [4; 5; 10] ->
    Resolve noCall "Tags" reflect.Slice
      {| Source := shelter; ArgsOf := {[ "skip" := AScalar (AInt skip) ]} |}
    = Ok (Some (VSlice [VString "e"]), None).
Proof.
  intros skip [<-|[<-|[<-|[]]]]; vm_compute; reflexivity.
Qed.

(** A record member of a record is returned as it is, for the next level
    of the traversal; a member of a kind [Resolve] does not list gives the
    error "unknown type". *)
Example nested_record_and_unknown_kind :
  Resolve noCall "Friend" reflect.Struct
    {| Source := Some (VStruct "main" "Dog" [("Friend", cat "Maru" 3 "White")]);
       ArgsOf := ∅ |}
  = Ok (Some (cat "Maru" 3 "White"), None)
  /\ Resolve noCall "Ch" reflect.Chan
       {| Source := Some (VStruct "main" "T" [("Ch", VOpaque reflect.Chan)]);
          ArgsOf := ∅ |}
     = Ok (None, Some "unknown type").
Proof. split; reflexivity. Qed.

(** * Further properties *)

(** ** The build of the schema *)

Lemma synthArgs_total (structFieldName : string) (t : reflect.rtype)
    (subfields : graphql.Fields) (fm : gmap string graphql.ArgumentConfig) :
  wellFormed t = true ->
  exists args fm', synthArgs structFieldName t subfields fm = Ok (args, fm').
Proof.
  intros Hwf. destruct t as [n k|n a e|n outs|p n sfs].
  - cbn in Hwf. unfold synthArgs. cbn [reflect.KindOf]. destruct k; try discriminate; eauto.
  - unfold synthArgs. cbn [reflect.KindOf Elem rbind].
    destruct a; cbn [rbind]; destruct (reflect.Kind_eqb _ _);
      try destruct (fm !! structFieldName); eauto.
  - unfold synthArgs. cbn [reflect.KindOf]. eauto.
  - unfold synthArgs. cbn [reflect.KindOf]. eauto.
Qed.

Lemma memberLoop_total (sfs : list (string * reflect.rtype)) :
  Forall (fun f => wellFormed (snd f) = true ->
            forall st, exists o sub st',
              createGraphQlFieldHierarchy (snd f) st = Ok (o, sub, st')) sfs ->
  forallb (fun f => wellFormed (snd f)) sfs = true ->
  forall fields st, exists fields' st',
    memberLoop createGraphQlFieldHierarchy sfs fields st = Ok (fields', st').
Proof.
  induction 1 as [|m sfs Hm _ IH]; intros Hwf fields st; [cbn; eauto|].
  cbn [forallb] in Hwf. apply andb_true_iff in Hwf as [Hw Hwf].
  cbn [memberLoop]. unfold memberStep.
  destruct (Hm Hw st) as (o & sub & st1 & ->). cbn [rbind].
  destruct o as [ty|]; cbn [rbind].
  - destruct (synthArgs_total (fst m) (snd m) sub (filterMap st1) Hw) as (args & fm' & ->).
    cbn [rbind]. apply IH; assumption.
  - apply IH; assumption.
Qed.

Lemma create_total (t : reflect.rtype) :
  wellFormed t = true ->
  forall st, exists o fields st',
    createGraphQlFieldHierarchy t st = Ok (o, fields, st').
Proof.
  induction t as [name k|name isArray elem IH|name outs IH|pkg name sfs IH]
    using rtype_nested_ind; intros Hwf st; rewrite create_unfold;
    (destruct (typesMap st !! _) as [known|]; [eauto|]).
  - cbn. eauto.
  - cbn [is_typeTime]. destruct (IH Hwf st) as (o & f & st' & ->). cbn [rbind]. eauto.
  - cbn [is_typeTime]. destruct outs as [|returnType outs]; [discriminate|].
    destruct (reflect.Kind_eqb _ _); [eauto|].
    apply Forall_cons in IH as [IH _]. exact (IH Hwf st).
  - destruct (is_typeTime _); [eauto|]. cbn [wellFormed] in Hwf.
    destruct (memberLoop_total sfs IH Hwf ∅ st) as (f1 & s1 & ->).
    cbn [rbind NewObject]. eauto.
Qed.

(** X1. On a type that is a finite tree (no record type contains itself)
    and in which every func type has a result, the build returns, from
    every state of the two maps; on a func type with no result it panics,
    at [t.Out(0)], when the cache has no entry under the name of the
    type. *)
Theorem build_never_panics (t : reflect.rtype) (st : BuildState) :
  (wellFormed t = true ->
   exists o fields st', createGraphQlFieldHierarchy t st = Ok (o, fields, st'))
  /\ (forall name, t = reflect.TFunc name [] -> typesMap st !! name = None ->
      exists msg, createGraphQlFieldHierarchy t st = Panic msg).
Proof.
  split.
  - intros Hwf. exact (create_total t Hwf st).
  - intros name -> Hmiss. rewrite create_unfold. cbn [reflect.Name]. rewrite Hmiss.
    cbn. eauto.
Qed.

(** X29. A record type that contains itself is never found in the cache
    while it is built: on [type Node struct{ Children []Node }] unrolled
    [n] times, from a state with no entry under the name [Node] and none
    under the empty name, the build descends to the innermost level and
    registers an object named [Node] at every level, [n + 1] in all, and
    changes no entry of the cache but that of [Node]. *)
Theorem self_reference_is_built_at_every_level (n : nat) (st : BuildState) :
  typesMap st !! "Node" = None -> typesMap st !! "" = None ->
  exists o fields st',
    createGraphQlFieldHierarchy (unrolledNode n) st = Ok (o, fields, st')
    /\ registeredNames st' = (registeredNames st ++ replicate (S n) "Node")%list
    /\ (forall k, k <> "Node" -> typesMap st' !! k = typesMap st !! k).
Proof.
  revert st. induction n as [|n IH]; intros st Hnode Hlist.
  - cbn [unrolledNode]. rewrite create_unfold. cbn [reflect.Name]. rewrite Hnode.
    cbn [is_typeTime]. cbn [memberLoop rbind NewObject]. do 3 eexists.
    split; [reflexivity|]. cbn [setTypesMap typesMap objects]. split.
    + unfold registeredNames. cbn [setTypesMap objects]. by rewrite fmap_app.
    + intros k Hk. by rewrite lookup_insert_ne.
  - destruct (IH st Hnode Hlist) as (o & fields & st1 & Hc & Hreg & Hother).
    cbn [unrolledNode]. rewrite create_unfold. cbn [reflect.Name]. rewrite Hnode.
    cbn [is_typeTime]. cbn [memberLoop]. unfold memberStep at 1. cbn [fst snd].
    rewrite (create_unfold (reflect.TList _ _ _)). cbn [reflect.Name is_typeTime].
    rewrite Hlist, Hc. cbn [rbind].
    rewrite (synthArgs_records "Children" "" false (unrolledNode n) fields (filterMap st1))
      by (by destruct n).
    cbn [rbind NewObject]. do 3 eexists. split; [reflexivity|].
    cbn [setTypesMap withFilterMap typesMap objects]. split.
    + unfold registeredNames in *. cbn [setTypesMap withFilterMap objects].
      rewrite fmap_app, Hreg.
      rewrite <- app_assoc. f_equal. cbn [fmap list_fmap graphql.ObjName].
      change (replicate (S n) "Node" ++ ["Node"])%list
        with (replicate (S n) "Node" ++ replicate 1 "Node")%list.
      rewrite <- replicate_add. f_equal. lia.
    + intros k Hk. rewrite lookup_insert_ne by done. by apply Hother.
Qed.

(** X2. A build only adds: every object of the store stays where it is, the
    store does not shrink, every name of the cache stays in the cache, and
    the entries under the names of no record type of the built type are as
    before. *)
Theorem build_only_adds (t : reflect.rtype) (st st' : BuildState)
    (o : option graphql.Output) (fields : graphql.Fields) :
  createGraphQlFieldHierarchy t st = Ok (o, fields, st') ->
  (forall p cfg, objects st !! p = Some cfg -> objects st' !! p = Some cfg)
  /\ (length (objects st) <= length (objects st'))%nat
  /\ (forall k, is_Some (typesMap st !! k) -> is_Some (typesMap st' !! k))
  /\ (forall k, k ∉ structNames t -> typesMap st' !! k = typesMap st !! k).
Proof.
  intros H. destruct (create_preserves t st o fields st' H) as (Hout & Hkeep & new & Hnew).
  split; [|split; [|split]]; [| |exact Hkeep|exact Hout].
  - intros p cfg Hp. rewrite Hnew. by apply lookup_app_l_Some.
  - rewrite Hnew, length_app. lia.
Qed.

Lemma build_only_adds_witness :
  exists o fields st',
    createGraphQlFieldHierarchy Pound kennelState = Ok (o, fields, st')
    /\ (forall p cfg, objects kennelState !! p = Some cfg -> objects st' !! p = Some cfg)
    /\ (length (objects kennelState) <= length (objects st'))%nat
    /\ (forall k, is_Some (typesMap kennelState !! k) -> is_Some (typesMap st' !! k))
    /\ (forall k, k ∉ structNames Pound ->
          typesMap st' !! k = typesMap kennelState !! k).
Proof.
  destruct (create_total Pound eq_refl kennelState) as (o & fields & st' & E).
  exists o, fields, st'. split; [exact E|].
  exact (build_only_adds Pound kennelState st' o fields E).
Defined.

Lemma validOutput_mono (n n' : nat) (o : graphql.Output) :
  (n <= n')%nat -> validOutput n o -> validOutput n' o.
Proof. intros Hn H ptr Hp. specialize (H ptr Hp). lia. Qed.

Lemma validFields_mono (n n' : nat) (fields : graphql.Fields) :
  (n <= n')%nat -> validFields n fields -> validFields n' fields.
Proof. intros Hn H k f o Hk Ho. eapply validOutput_mono; [exact Hn|]. eauto. Qed.

Lemma validFields_empty (n : nat) : validFields n ∅.
Proof. intros k f o Hk. by rewrite lookup_empty in Hk. Qed.

Lemma validFields_insert (n : nat) (fields : graphql.Fields) (k : string)
    (f : graphql.Field) :
  validFields n fields ->
  (forall o, graphql.FieldType f = Some o -> validOutput n o) ->
  validFields n (<[k := f]> fields).
Proof.
  intros Hf Hnew k' f' o Hk Ho. destruct (decide (k = k')) as [<-|Hne].
  - rewrite lookup_insert_eq in Hk. injection Hk as <-. auto.
  - rewrite lookup_insert_ne in Hk by done. eauto.
Qed.

Lemma storeClosed_eq (st st' : BuildState) :
  typesMap st' = typesMap st -> objects st' = objects st ->
  storeClosed st -> storeClosed st'.
Proof. unfold storeClosed. intros -> ->. done. Qed.

Lemma storeClosed_empty : storeClosed emptyState.
Proof.
  split.
  - intros k o fields Hk. cbn in Hk. by rewrite lookup_empty in Hk.
  - intros p cfg Hp. cbn in Hp. by rewrite lookup_nil in Hp.
Qed.

Lemma memberLoop_closed (sfs : list (string * reflect.rtype)) :
  Forall (fun f => forall st o sub st',
            storeClosed st ->
            createGraphQlFieldHierarchy (snd f) st = Ok (o, sub, st') ->
            closedResult st' o sub) sfs ->
  forall fields st fields' st',
    storeClosed st -> validFields (length (objects st)) fields ->
    memberLoop createGraphQlFieldHierarchy sfs fields st = Ok (fields', st') ->
    storeClosed st' /\ validFields (length (objects st')) fields'.
Proof.
  induction 1 as [|m sfs Hm _ IH]; intros fields st fields' st' Hst Hf Hloop.
  - by injection Hloop as <- <-.
  - cbn [memberLoop] in Hloop.
    destruct (memberStep createGraphQlFieldHierarchy m fields st) as [[f1 s1]|msg] eqn:Hstep;
      [|discriminate].
    cbn [rbind] in Hloop. apply (IH _ _ _ _) in Hloop; [exact Hloop| |].
    + apply memberStep_state in Hstep as (o & sub & st1 & Hc & Ht & Ho).
      destruct (Hm _ _ _ _ Hst Hc) as (Hst1 & _ & _).
      exact (storeClosed_eq st1 s1 Ht Ho Hst1).
    + unfold memberStep in Hstep.
      destruct (createGraphQlFieldHierarchy (snd m) st) as [[[o sub] st1]|msg] eqn:Hc;
        [|discriminate].
      destruct (Hm _ _ _ _ Hst Hc) as (Hst1 & Ho & _).
      destruct (create_preserves _ _ _ _ _ Hc) as (_ & _ & new & Hnew).
      assert (Hlen : (length (objects st) <= length (objects st1))%nat)
        by (rewrite Hnew, length_app; lia).
      cbn [rbind] in Hstep. destruct o as [ty|].
      * destruct (synthArgs _ _ _ _) as [[args fm]|msg]; [|discriminate].
        cbn [rbind] in Hstep. injection Hstep as <- <-. cbn [withFilterMap objects].
        apply validFields_insert; [exact (validFields_mono _ _ _ Hlen Hf)|].
        cbn [graphql.FieldType]. intros o' [= <-]. by apply Ho.
      * injection Hstep as <- <-. exact (validFields_mono _ _ _ Hlen Hf).
Qed.

(** X3. No dangling object: if every object pointer of the cache and of the
    store lies in the store, then after a build it is so again, and so do
    the pointers of the type and of the field map the build returns. *)
Theorem schema_is_closed (t : reflect.rtype) :
  forall st o fields st',
    storeClosed st ->
    createGraphQlFieldHierarchy t st = Ok (o, fields, st') ->
    closedResult st' o fields.
Proof.
  induction t as [name k0|name isArray elem IH|name outs IH|pkg name sfs IH]
    using rtype_nested_ind; intros st o sub st' Hst; rewrite create_unfold;
    (destruct (typesMap st !! _) as [[ko kf]|] eqn:Hhit;
     [intros [= <- <- <-]; destruct (proj1 Hst _ _ _ Hhit) as [H1 H2];
      split; [exact Hst|split; [exact H1|exact H2]]|]).
  - cbn. intros [= <- <- <-]. split; [done|]. split; [|apply validFields_empty].
    intros o' Ho' ptr. unfold getBasicOutput in Ho'. cbn [reflect.KindOf] in Ho'.
    destruct k0; try discriminate; injection Ho' as <-; discriminate.
  - cbn [is_typeTime].
    destruct (createGraphQlFieldHierarchy elem st) as [[[nt f1] s1]|msg] eqn:E; [|discriminate].
    cbn [rbind]. intros [= <- <- <-]. destruct (IH _ _ _ _ Hst E) as (H1 & H2 & H3).
    split; [done|]. split; [|done]. intros o' [= <-] ptr. destruct nt as [o''|]; cbn.
    + apply H2. reflexivity.
    + discriminate.
  - cbn [is_typeTime]. destruct outs as [|returnType outs]; [discriminate|].
    destruct (reflect.Kind_eqb _ _).
    + intros [= <- <- <-]. split; [done|]. split; [done|apply validFields_empty].
    + intros E. apply Forall_cons in IH as [IH _]. exact (IH _ _ _ _ Hst E).
  - destruct (is_typeTime _).
    { intros [= <- <- <-]. split; [done|]. split; [|apply validFields_empty].
      intros o' [= <-] ptr. discriminate. }
    destruct (memberLoop createGraphQlFieldHierarchy sfs ∅ st) as [[f1 s1]|msg] eqn:E;
      [|discriminate].
    cbn [rbind NewObject]. intros [= <- <- <-].
    destruct (memberLoop_closed sfs IH _ _ _ _ Hst (validFields_empty _) E) as [[Hc Ho] Hf].
    assert (Hlen : (length (objects s1) <= length (objects s1 ++ [{| graphql.ObjName := name; graphql.ObjFields := f1 |}]))%nat)
      by (rewrite length_app; lia).
    unfold closedResult, storeClosed. cbn [setTypesMap typesMap objects].
    split; [split|split].
    + intros k o fields Hk. destruct (decide (name = k)) as [<-|Hne].
      * rewrite lookup_insert_eq in Hk. injection Hk as <- <-. split.
        -- intros o' [= <-] ptr [= <-]. rewrite length_app. cbn. lia.
        -- exact (validFields_mono _ _ _ Hlen Hf).
      * rewrite lookup_insert_ne in Hk by done. destruct (Hc _ _ _ Hk) as [H1 H2]. split.
        -- intros o' Ho'. exact (validOutput_mono _ _ _ Hlen (H1 _ Ho')).
        -- exact (validFields_mono _ _ _ Hlen H2).
    + intros p cfg Hp. apply lookup_app_Some in Hp as [Hp|[_ Hp]].
      * exact (validFields_mono _ _ _ Hlen (Ho _ _ Hp)).
      * destruct (p - length (objects s1))%nat; [|done]. injection Hp as <-.
        exact (validFields_mono _ _ _ Hlen Hf).
    + intros o' [= <-] ptr [= <-]. rewrite length_app. cbn. lia.
    + exact (validFields_mono _ _ _ Hlen Hf).
Qed.

Lemma schema_is_closed_witness :
  exists o fields st',
    createGraphQlFieldHierarchy Kennel emptyState = Ok (o, fields, st')
    /\ closedResult st' o fields.
Proof.
  destruct (create_total Kennel eq_refl emptyState) as (o & fields & st' & E).
  exists o, fields, st'. split; [exact E|].
  exact (schema_is_closed Kennel emptyState o fields st' storeClosed_empty E).
Defined.



Lemma memberLoop_fields (create : reflect.rtype -> BuildState ->
      result (option graphql.Output * graphql.Fields * BuildState))
    (sfs : list (string * reflect.rtype)) :
  forall fields st fields' st',
    memberLoop create sfs fields st = Ok (fields', st') ->
    forall k f, fields' !! k = Some f ->
      fields !! k = Some f \/ fieldOfMember sfs k f.
Proof.
  induction sfs as [|m sfs IH]; intros fields st fields' st' Hloop k f Hk.
  - injection Hloop as <- <-. by left.
  - cbn [memberLoop] in Hloop.
    destruct (memberStep create m fields st) as [[f1 s1]|msg] eqn:Hstep; [|discriminate].
    cbn [rbind] in Hloop. destruct (IH _ _ _ _ Hloop k f Hk) as [H1|(Hek & Hty & t & Hin & Hr)].
    + unfold memberStep in Hstep.
      destruct (create (snd m) st) as [[[o sub] st1]|msg]; [|discriminate].
      cbn [rbind] in Hstep. destruct o as [ty|].
      * destruct (synthArgs _ _ _ _) as [[args fm]|msg]; [|discriminate].
        cbn [rbind] in Hstep. injection Hstep as <- <-.
        destruct (decide (ToLower (fst m) = k)) as [<-|Hne].
        -- rewrite lookup_insert_eq in H1. injection H1 as <-. right.
           split; [reflexivity|]. split; [cbn; eauto|]. exists (snd m).
           split; [|reflexivity]. cbn [graphql.FieldName]. destruct m. left.
        -- rewrite lookup_insert_ne in H1 by done. by left.
      * injection Hstep as <- <-. by left.
    + right. split; [done|]. split; [done|]. exists t. split; [by right|done].
Qed.

(** X5. Every field of the object built for a record type comes from a
    member of the type: its key is the member's name in lower case, it has a
    type, and its closure captures the name of the member and the kind of
    the member's type. *)
Theorem record_fields_come_from_members (pkg name : string)
    (sfs : list (string * reflect.rtype)) (st st' : BuildState)
    (o : option graphql.Output) (fields : graphql.Fields) :
  typesMap st !! name = None ->
  is_typeTime (reflect.TStruct pkg name sfs) = false ->
  createGraphQlFieldHierarchy (reflect.TStruct pkg name sfs) st = Ok (o, fields, st') ->
  forall k f, fields !! k = Some f -> fieldOfMember sfs k f.
Proof.
  intros Hn Ht. rewrite create_unfold. cbn [reflect.Name]. rewrite Hn, Ht.
  destruct (memberLoop createGraphQlFieldHierarchy sfs ∅ st) as [[f1 s1]|msg] eqn:E;
    [|discriminate].
  cbn [rbind NewObject]. intros [= <- <- <-] k f Hk.
  destruct (memberLoop_fields _ sfs _ _ _ _ E k f Hk) as [H|H]; [|exact H].
  by rewrite lookup_empty in H.
Qed.

Lemma record_fields_come_from_members_witness :
  exists o fields st',
    createGraphQlFieldHierarchy Dog emptyState = Ok (o, fields, st')
    /\ forall k f, fields !! k = Some f -> fieldOfMember (reflect.VisibleFields Dog) k f.
Proof.
  destruct (create_total Dog eq_refl emptyState) as (o & fields & st' & E).
  exists o, fields, st'. split; [exact E|].
  exact (record_fields_come_from_members "main" "Dog" (reflect.VisibleFields Dog)
           emptyState st' o fields eq_refl eq_refl E).
Defined.

Lemma memberStep_scalar (structFieldName typeName : string) (k : reflect.Kind)
    (ty : graphql.Output) (fields : graphql.Fields) (st : BuildState) :
  typesMap st !! typeName = None ->
  getBasicOutput (reflect.TPlain typeName k) = Some ty ->
  memberStep createGraphQlFieldHierarchy (structFieldName, reflect.TPlain typeName k) fields st
  = Ok (<[ToLower structFieldName :=
            {| graphql.FieldName := structFieldName;
               graphql.FieldType := Some ty;
               graphql.Args := ∅;
               graphql.Resolve := graphql.MemberResolve structFieldName k |}]> fields,
        st).
Proof.
  intros Hmiss Hty.
  rewrite (memberStep_kept structFieldName (reflect.TPlain typeName k) fields ∅ st st ty
             ∅ (filterMap st)).
  - by rewrite withFilterMap_same.
  - rewrite create_unfold. cbn [reflect.Name is_typeTime]. rewrite Hmiss, Hty. reflexivity.
  - rewrite synthArgs_other; [reflexivity| |];
      unfold getBasicOutput in Hty; cbn [reflect.KindOf] in *; destruct k; discriminate.
Qed.

(** X6. Two scalar members whose names differ in case only share one key of
    the field map: the object has a single field, that of the second member,
    and the first member cannot be queried. *)
Theorem case_folded_names_last_member_wins
    (pkg name first second typeName1 typeName2 : string) (k1 k2 : reflect.Kind)
    (ty1 ty2 : graphql.Output) (st : BuildState) :
  ToLower first = ToLower second ->
  typesMap st !! name = None ->
  typesMap st !! typeName1 = None -> typesMap st !! typeName2 = None ->
  is_typeTime (reflect.TStruct pkg name []) = false ->
  getBasicOutput (reflect.TPlain typeName1 k1) = Some ty1 ->
  getBasicOutput (reflect.TPlain typeName2 k2) = Some ty2 ->
  exists st',
    createGraphQlFieldHierarchy
      (reflect.TStruct pkg name
         [(first, reflect.TPlain typeName1 k1); (second, reflect.TPlain typeName2 k2)]) st
    = Ok (Some (graphql.OObject (length (objects st))),
          {[ ToLower second :=
               {| graphql.FieldName := second;
                  graphql.FieldType := Some ty2;
                  graphql.Args := ∅;
                  graphql.Resolve := graphql.MemberResolve second k2 |} ]},
          st').
Proof.
  intros Hfold Hn H1 H2 Ht Hty1 Hty2. rewrite create_unfold. cbn [reflect.Name].
  rewrite Hn. change (is_typeTime _) with (is_typeTime (reflect.TStruct pkg name [])).
  rewrite Ht. cbn [memberLoop].
  rewrite (memberStep_scalar first typeName1 k1 ty1 ∅ st H1 Hty1). cbn [rbind].
  rewrite (memberStep_scalar second typeName2 k2 ty2 _ st H2 Hty2). cbn [rbind NewObject].
  rewrite Hfold, insert_insert_eq. eexists. reflexivity.
Qed.

Lemma case_folded_names_last_member_wins_witness :
  exists st',
    createGraphQlFieldHierarchy
      (reflect.TStruct "main" "Tag" [("Name", tString); ("NAME", tInt)]) emptyState
    = Ok (Some (graphql.OObject 0),
          {[ "name" :=
               {| graphql.FieldName := "NAME";
                  graphql.FieldType := Some (graphql.OScalar graphql.Float);
                  graphql.Args := ∅;
                  graphql.Resolve := graphql.MemberResolve "NAME" reflect.Int |} ]},
          st').
Proof.
  exact (case_folded_names_last_member_wins "main" "Tag" "Name" "NAME" "string" "int"
           reflect.String reflect.Int (graphql.OScalar graphql.String)
           (graphql.OScalar graphql.Float) emptyState
           eq_refl eq_refl eq_refl eq_refl eq_refl eq_refl eq_refl).
Defined.



Lemma synthArgs_filterMap (structFieldName : string) (t : reflect.rtype)
    (subfields : graphql.Fields) (fm fm' args : gmap string graphql.ArgumentConfig) :
  synthArgs structFieldName t subfields fm = Ok (args, fm') ->
  forall k v, fm !! k = Some v -> fm' !! k = Some v.
Proof.
  unfold synthArgs. intros H k v Hk.
  destruct (reflect.KindOf t); try (injection H as <- <-; exact Hk);
    (destruct (Elem t) as [elem|]; [|discriminate]); cbn [rbind] in H;
    destruct (reflect.Kind_eqb _ _); try (injection H as <- <-; exact Hk);
    destruct (fm !! structFieldName) eqn:E; injection H as <- <-; try exact Hk;
    rewrite lookup_insert_ne; [exact Hk|congruence| exact Hk | congruence].
Qed.

Lemma memberStep_filterMap (m : string * reflect.rtype) (fields fields' : graphql.Fields)
    (st st' : BuildState) :
  (forall st o sub st1, createGraphQlFieldHierarchy (snd m) st = Ok (o, sub, st1) ->
     forall k v, filterMap st !! k = Some v -> filterMap st1 !! k = Some v) ->
  memberStep createGraphQlFieldHierarchy m fields st = Ok (fields', st') ->
  forall k v, filterMap st !! k = Some v -> filterMap st' !! k = Some v.
Proof.
  intros Hm. unfold memberStep.
  destruct (createGraphQlFieldHierarchy (snd m) st) as [[[o sub] st1]|msg] eqn:E; [|discriminate].
  cbn [rbind]. destruct o as [ty|].
  - destruct (synthArgs _ _ _ _) as [[args fm]|msg] eqn:Ea; [|discriminate].
    cbn [rbind]. intros [= <- <-] k v Hk. cbn [withFilterMap filterMap].
    eapply synthArgs_filterMap; [exact Ea|]. exact (Hm _ _ _ _ E k v Hk).
  - intros [= <- <-]. exact (Hm _ _ _ _ E).
Qed.

Lemma memberLoop_filterMap (sfs : list (string * reflect.rtype)) :
  Forall (fun f => forall st o sub st1,
            createGraphQlFieldHierarchy (snd f) st = Ok (o, sub, st1) ->
            forall k v, filterMap st !! k = Some v -> filterMap st1 !! k = Some v) sfs ->
  forall fields st fields' st',
    memberLoop createGraphQlFieldHierarchy sfs fields st = Ok (fields', st') ->
    forall k v, filterMap st !! k = Some v -> filterMap st' !! k = Some v.
Proof.
  induction 1 as [|m sfs Hm _ IH]; intros fields st fields' st' Hloop k v Hk.
  - by injection Hloop as <- <-.
  - cbn [memberLoop] in Hloop.
    destruct (memberStep createGraphQlFieldHierarchy m fields st) as [[f1 s1]|msg] eqn:Hstep;
      [|discriminate].
    cbn [rbind] in Hloop. eapply IH; [exact Hloop|].
    exact (memberStep_filterMap m fields f1 st s1 Hm Hstep k v Hk).
Qed.

Lemma create_filterMap (t : reflect.rtype) :
  forall st o fields st',
    createGraphQlFieldHierarchy t st = Ok (o, fields, st') ->
    forall k v, filterMap st !! k = Some v -> filterMap st' !! k = Some v.
Proof.
  induction t as [name k0|name isArray elem IH|name outs IH|pkg name sfs IH]
    using rtype_nested_ind; intros st o sub st'; rewrite create_unfold;
    (destruct (typesMap st !! _) as [known|]; [by intros [= <- <- <-]|]).
  - cbn. by intros [= <- <- <-].
  - cbn [is_typeTime].
    destruct (createGraphQlFieldHierarchy elem st) as [[[nt f1] s1]|msg] eqn:E; [|discriminate].
    cbn [rbind]. intros [= <- <- <-]. exact (IH _ _ _ _ E).
  - cbn [is_typeTime]. destruct outs as [|returnType outs]; [discriminate|].
    destruct (reflect.Kind_eqb _ _); [by intros [= <- <- <-]|].
    intros E. apply Forall_cons in IH as [IH _]. exact (IH _ _ _ _ E).
  - destruct (is_typeTime _); [by intros [= <- <- <-]|].
    destruct (memberLoop createGraphQlFieldHierarchy sfs ∅ st) as [[f1 s1]|msg] eqn:E;
      [|discriminate].
    cbn [rbind NewObject]. intros [= <- <- <-] k v Hk. cbn [setTypesMap filterMap].
    exact (memberLoop_filterMap sfs IH _ _ _ _ E k v Hk).
Qed.

(** X8. An entry of the map of filter shapes is never replaced or removed by
    a build. *)
Theorem filter_shapes_are_never_replaced (t : reflect.rtype) (st st' : BuildState)
    (o : option graphql.Output) (fields : graphql.Fields) :
  createGraphQlFieldHierarchy t st = Ok (o, fields, st') ->
  forall k v, filterMap st !! k = Some v -> filterMap st' !! k = Some v.
Proof. apply create_filterMap. Qed.

Lemma filter_shapes_are_never_replaced_witness :
  exists o fields st',
    createGraphQlFieldHierarchy Pound kennelState = Ok (o, fields, st')
    /\ filterMap st' !! "Dogs" = Some dogsFilter.
Proof.
  destruct (create_total Pound eq_refl kennelState) as (o & fields & st' & E).
  exists o, fields, st'. split; [exact E|].
  apply (filter_shapes_are_never_replaced Pound kennelState st' o fields E).
  vm_compute. reflexivity.
Defined.

(** X9. The filter shape is keyed by the name of the member, not by the type
    of the elements: when the map has an entry under the name of a member
    that is a collection of records, the 'where' argument of the member's
    field is that entry, whatever the record type of the elements is. *)
Theorem filter_shape_is_keyed_by_member_name
    (pkg name structFieldName listName : string) (isArray : bool)
    (elem : reflect.rtype) (st st' : BuildState) (o : option graphql.Output)
    (fields : graphql.Fields) (argConfig : graphql.ArgumentConfig) :
  typesMap st !! name = None -> typesMap st !! listName = None ->
  is_typeTime (reflect.TStruct pkg name
                 [(structFieldName, reflect.TList listName isArray elem)]) = false ->
  reflect.KindOf elem = reflect.Struct ->
  filterMap st !! structFieldName = Some argConfig ->
  createGraphQlFieldHierarchy
    (reflect.TStruct pkg name [(structFieldName, reflect.TList listName isArray elem)]) st
  = Ok (o, fields, st') ->
  exists f, fields !! ToLower structFieldName = Some f
    /\ graphql.FieldName f = structFieldName
    /\ graphql.Args f !! "where" = Some argConfig.
Proof.
  intros Hmiss Hlist Ht Hk Hfm. rewrite create_unfold. cbn [reflect.Name].
  rewrite Hmiss, Ht. cbn [memberLoop]. unfold memberStep. cbn [fst snd].
  destruct (createGraphQlFieldHierarchy (reflect.TList listName isArray elem) st)
    as [[[ty sub] st1]|msg] eqn:E; [|discriminate].
  cbn [rbind]. assert (Hfm1 := create_filterMap _ _ _ _ _ E _ _ Hfm).
  assert (Hty : is_Some ty).
  { revert E. rewrite create_unfold. cbn [reflect.Name is_typeTime]. rewrite Hlist.
    destruct (createGraphQlFieldHierarchy elem st) as [[[nt f1] s1]|msg]; [|discriminate].
    cbn [rbind]. intros [= <- _ _]. eauto. }
  destruct Hty as [ty' ->].
  rewrite (synthArgs_records structFieldName listName isArray elem sub (filterMap st1) Hk).
  rewrite Hfm1. cbn [rbind NewObject default]. intros [= <- <- <-].
  eexists. rewrite lookup_insert_eq. split; [reflexivity|]. split; [reflexivity|].
  cbn [graphql.Args]. by rewrite lookup_insert_eq.
Qed.

Lemma filter_shape_is_keyed_by_member_name_witness :
  exists o fields st',
    createGraphQlFieldHierarchy Pound kennelState = Ok (o, fields, st')
    /\ exists f, fields !! "dogs" = Some f
         /\ graphql.FieldName f = "Dogs"
         /\ graphql.Args f !! "where" = Some dogsFilter.
Proof.
  destruct (create_total Pound eq_refl kennelState) as (o & fields & st' & E).
  exists o, fields, st'. split; [exact E|].
  apply (filter_shape_is_keyed_by_member_name "main" "Pound" "Dogs" "" false Crate
           kennelState st' o fields dogsFilter); try exact E;
    vm_compute; reflexivity.
Defined.

Lemma intFree_empty : intFree ∅.
Proof. intros k f Hk. by rewrite lookup_empty in Hk. Qed.

Lemma stateIntFree_empty : stateIntFree emptyState.
Proof.
  split.
  - intros k o fields Hk. cbn in Hk. by rewrite lookup_empty in Hk.
  - intros p cfg Hp. cbn in Hp. by rewrite lookup_nil in Hp.
Qed.

Lemma memberLoop_intFree (sfs : list (string * reflect.rtype)) :
  Forall (fun f => forall st o sub st',
            stateIntFree st ->
            createGraphQlFieldHierarchy (snd f) st = Ok (o, sub, st') ->
            stateIntFree st' /\ declaredInt o = false /\ intFree sub) sfs ->
  forall fields st fields' st',
    stateIntFree st -> intFree fields ->
    memberLoop createGraphQlFieldHierarchy sfs fields st = Ok (fields', st') ->
    stateIntFree st' /\ intFree fields'.
Proof.
  induction 1 as [|m sfs Hm _ IH]; intros fields st fields' st' Hst Hf Hloop.
  - by injection Hloop as <- <-.
  - cbn [memberLoop] in Hloop. unfold memberStep in Hloop.
    destruct (createGraphQlFieldHierarchy (snd m) st) as [[[o sub] st1]|msg] eqn:Hc;
      [|discriminate].
    destruct (Hm _ _ _ _ Hst Hc) as (Hst1 & Ho & _).
    cbn [rbind] in Hloop. destruct o as [ty|].
    + destruct (synthArgs _ _ _ _) as [[args fm]|msg]; [|discriminate].
      cbn [rbind] in Hloop. apply (IH _ _ _ _) in Hloop; [exact Hloop|exact Hst1|].
      intros k f Hk. destruct (decide (ToLower (fst m) = k)) as [<-|Hne].
      * rewrite lookup_insert_eq in Hk. injection Hk as <-. exact Ho.
      * rewrite lookup_insert_ne in Hk by done. eauto.
    + cbn [rbind] in Hloop. apply (IH _ _ _ _) in Hloop; [exact Hloop|exact Hst1|exact Hf].
Qed.

Lemma create_intFree (t : reflect.rtype) :
  forall st o fields st',
    stateIntFree st ->
    createGraphQlFieldHierarchy t st = Ok (o, fields, st') ->
    stateIntFree st' /\ declaredInt o = false /\ intFree fields.
Proof.
  induction t as [name k0|name isArray elem IH|name outs IH|pkg name sfs IH]
    using rtype_nested_ind; intros st o sub st' Hst; rewrite create_unfold;
    (destruct (typesMap st !! _) as [[ko kf]|] eqn:Hhit;
     [intros [= <- <- <-]; destruct (proj1 Hst _ _ _ Hhit) as [H1 H2]; done|]).
  - cbn. intros [= <- <- <-]. split; [done|]. split; [|apply intFree_empty].
    unfold getBasicOutput. cbn [reflect.KindOf]. by destruct k0.
  - cbn [is_typeTime].
    destruct (createGraphQlFieldHierarchy elem st) as [[[nt f1] s1]|msg] eqn:E; [|discriminate].
    cbn [rbind]. intros [= <- <- <-]. destruct (IH _ _ _ _ Hst E) as (H1 & H2 & H3). done.
  - cbn [is_typeTime]. destruct outs as [|returnType outs]; [discriminate|].
    destruct (reflect.Kind_eqb _ _).
    + intros [= <- <- <-]. split; [done|]. split; [done|apply intFree_empty].
    + intros E. apply Forall_cons in IH as [IH _]. exact (IH _ _ _ _ Hst E).
  - destruct (is_typeTime _).
    { intros [= <- <- <-]. split; [done|]. split; [done|apply intFree_empty]. }
    destruct (memberLoop createGraphQlFieldHierarchy sfs ∅ st) as [[f1 s1]|msg] eqn:E;
      [|discriminate].
    cbn [rbind NewObject]. intros [= <- <- <-].
    destruct (memberLoop_intFree sfs IH _ _ _ _ Hst intFree_empty E) as [[Hc Ho] Hf].
    split; [|done]. split.
    + intros k o fields. cbn [setTypesMap typesMap].
      destruct (decide (name = k)) as [<-|Hne].
      * rewrite lookup_insert_eq. by intros [= <- <-].
      * rewrite lookup_insert_ne by done. apply Hc.
    + intros p cfg. cbn [setTypesMap objects]. intros Hp.
      apply lookup_app_Some in Hp as [Hp|[_ Hp]]; [by eapply Ho|].
      destruct (p - length (objects s1))%nat; [|done]. by injection Hp as <-.
Qed.

(** X10. [graphql.Int] is never the type of a field: starting from maps and
    a store without such a field, a build returns no such type and no such
    field and leaves no such field behind, so that 'Register all filter
    arguments' never adds an argument of type [graphql.Int] (only 'skip' and
    'limit' have that type). *)
Theorem integers_are_never_declared_Int (t : reflect.rtype) (st st' : BuildState)
    (o : option graphql.Output) (fields : graphql.Fields) :
  stateIntFree st ->
  createGraphQlFieldHierarchy t st = Ok (o, fields, st') ->
  stateIntFree st'
  /\ o <> Some (graphql.OScalar graphql.Int)
  /\ (forall k f, fields !! k = Some f ->
        graphql.FieldType f <> Some (graphql.OScalar graphql.Int))
  /\ (forall k argConfig, subfieldArgs fields !! k = Some argConfig ->
        argConfig <> intArg).
Proof.
  intros Hst Hc. destruct (create_intFree t st o fields st' Hst Hc) as (H1 & H2 & H3).
  split; [exact H1|]. split; [by intros ->|]. split.
  - intros k f Hk Hf. specialize (H3 k f Hk). by rewrite Hf in H3.
  - intros k argConfig. rewrite subfieldArgs_lookup.
    destruct (fields !! k) as [f|] eqn:Hk; [|done]. cbn. unfold subfieldArg.
    specialize (H3 k f Hk).
    destruct (graphql.FieldType f) as [[[]| |]|]; try done; by intros [= <-].
Qed.

Lemma integers_are_never_declared_Int_witness :
  exists o fields st',
    createGraphQlFieldHierarchy Kennel emptyState = Ok (o, fields, st')
    /\ stateIntFree st'
    /\ o <> Some (graphql.OScalar graphql.Int)
    /\ (forall k f, fields !! k = Some f ->
          graphql.FieldType f <> Some (graphql.OScalar graphql.Int))
    /\ (forall k argConfig, subfieldArgs fields !! k = Some argConfig ->
          argConfig <> intArg).
Proof.
  destruct (create_total Kennel eq_refl emptyState) as (o & fields & st' & E).
  exists o, fields, st'. split; [exact E|].
  exact (integers_are_never_declared_Int Kennel emptyState st' o fields
           stateIntFree_empty E).
Defined.

(** ** The closure of a field *)

Section MoreResolve.

Variable Call : nat -> option Value -> result (option Value * option error).

(** X11. The arguments of a field matter to members of slice and array kind
    only: every other closure returns the same with any arguments, although
    'Register all filter arguments' declares arguments for record members
    too; and when 'where' is supplied the result depends on no other
    argument ('skip' and 'limit' are ignored). *)
Theorem arguments_matter_to_collections_only
    (structFieldName : string) (k : reflect.Kind) (src : option Value)
    (args args' : gmap string Arg) :
  (collectionKind k = false ->
   Resolve Call structFieldName k {| Source := src; ArgsOf := args |}
   = Resolve Call structFieldName k {| Source := src; ArgsOf := args' |})
  /\ (collectionKind k = true ->
      is_Some (args !! "where") -> args !! "where" = args' !! "where" ->
      Resolve Call structFieldName k {| Source := src; ArgsOf := args |}
      = Resolve Call structFieldName k {| Source := src; ArgsOf := args' |}).
Proof.
  unfold Resolve. cbn [Source ArgsOf]. split.
  - intros Hk. destruct (FieldByName src structFieldName) as [r|]; [|reflexivity].
    cbn [rbind]. destruct k; try discriminate; reflexivity.
  - intros Hk [w Hw] Heq. destruct (FieldByName src structFieldName) as [r|]; [|reflexivity].
    cbn [rbind]. rewrite <- Heq, Hw. destruct k; try discriminate; reflexivity.
Qed.

Lemma whereLoop_at_most_one (filterOne : Arg) (r rest s : list Value) (i : Z) :
  (exists pre, r = (pre ++ rest)%list /\ i = Z.of_nat (length pre)) ->
  whereLoop filterOne r i rest = Ok s ->
  s = [] \/ exists element, s = [element] /\ element ∈ rest.
Proof.
  revert i. induction rest as [|element rest IH]; intros i (pre & Hr & Hi) H.
  - cbn in H. rewrite Slice_empty in H. injection H as <-. by left.
  - cbn [whereLoop] in H. destruct (asMap filterOne) as [filter|]; [|discriminate].
    cbn [rbind] in H. destruct (filterLoop element filter) as [matched|]; [|discriminate].
    cbn [rbind] in H. destruct matched.
    + subst r i. rewrite Slice_one in H. injection H as <-. right. exists element.
      split; [done|left].
    + apply IH in H as [H|(x & Hx & Hin)]; [by left| |].
      * right. exists x. split; [done|by right].
      * exists (pre ++ [element])%list. subst. rewrite <- app_assoc. split; [done|].
        rewrite length_app. cbn. lia.
Qed.

(** X12. Whatever the filter is, a 'where' that returns gives no error and a
    collection that is empty or holds one element, an element of the
    collection. *)
Theorem where_never_returns_more_than_one
    (structFieldName : string) (src : option Value) (args : gmap string Arg)
    (elems : list Value) (filterOne : Arg) (v : option Value) (e : option error) :
  FieldByName src structFieldName = Ok (Some (VSlice elems)) ->
  args !! "where" = Some filterOne ->
  Resolve Call structFieldName reflect.Slice {| Source := src; ArgsOf := args |}
    = Ok (v, e) ->
  e = None
  /\ (v = Some (VSlice [])
      \/ exists element, v = Some (VSlice [element]) /\ element ∈ elems).
Proof.
  intros Hr Hw. unfold Resolve. cbn [Source ArgsOf]. rewrite Hr. cbn [rbind Elems].
  rewrite Hw. destruct (whereLoop filterOne elems 0 elems) as [s|] eqn:E; [|discriminate].
  cbn [rbind]. intros [= <- <-]. split; [reflexivity|].
  apply whereLoop_at_most_one in E as [->|(x & -> & Hin)]; [by left|right; eauto|].
  exists []. done.
Qed.

Lemma filterLoop_app (element : Value) (before after : list (string * ArgValue)) :
  filterLoop element (before ++ after)
  = let* matched := filterLoop element before in
    if matched then Ok true else filterLoop element after.
Proof.
  induction before as [|[fieldName filterValue] before IH]; [reflexivity|].
  cbn [app filterLoop].
  destruct (FieldByNameFunc _ _) as [val|]; [|reflexivity]. cbn [rbind].
  destruct (filterMatch filterValue val) as [[|]|]; cbn [rbind]; [reflexivity|exact IH|reflexivity].
Qed.

(** X13. A member of the filter that is the lower-case name of no member
    of the first element makes the closure panic when no member of the
    filter visited before it matches that element: [FieldByNameFunc] gives
    the zero Value and [val.Interface()] panics on it. When a member
    visited before it matches, the element is returned: the outcome depends
    on the order in which [range] visits the filter. *)
Theorem filter_on_unknown_member_panics
    (structFieldName : string) (k : reflect.Kind) (src : option Value)
    (args : gmap string Arg) (pkg name : string) (fields : list (string * Value))
    (rest : list Value) (fieldName : string) (filterValue : ArgValue)
    (before more : list (string * ArgValue)) :
  collectionKind k = true ->
  FieldByName src structFieldName = Ok (Some (VSlice (VStruct pkg name fields :: rest))) ->
  args !! "where" = Some (AObject (before ++ (fieldName, filterValue) :: more)) ->
  membersNamed fieldName fields = [] ->
  (filterLoop (VStruct pkg name fields) before = Ok false ->
   exists msg,
     Resolve Call structFieldName k {| Source := src; ArgsOf := args |} = Panic msg)
  /\ (filterLoop (VStruct pkg name fields) before = Ok true ->
      k = reflect.Slice ->
      Resolve Call structFieldName k {| Source := src; ArgsOf := args |}
      = Ok (Some (VSlice [VStruct pkg name fields]), None)).
Proof.
  intros Hk Hr Hw Hnone.
  assert (Hloop : forall matched,
            filterLoop (VStruct pkg name fields) before = Ok matched ->
            filterLoop (VStruct pkg name fields)
              (before ++ (fieldName, filterValue) :: more)
            = if matched then Ok true
              else Panic "reflect: call of reflect.Value.Interface on zero Value").
  { intros matched Hb. rewrite filterLoop_app, Hb. cbn [rbind].
    destruct matched; [reflexivity|].
    cbn [filterLoop FieldByNameFunc]. fold (membersNamed fieldName fields).
    rewrite Hnone. by destruct filterValue. }
  unfold Resolve. cbn [Source ArgsOf]. rewrite Hr. cbn [rbind]. split.
  - intros Hb. eexists. destruct k; try discriminate; cbn [Elems rbind]; rewrite Hw;
      cbn [whereLoop asMap rbind]; rewrite (Hloop false Hb); reflexivity.
  - intros Hb ->. cbn [Elems rbind]. rewrite Hw. cbn [whereLoop asMap rbind].
    rewrite (Hloop true Hb). cbn [rbind].
    pose proof (Slice_one [] rest (VStruct pkg name fields)) as Hs.
    change (Z.of_nat (length [])) with 0 in Hs. cbn [app] in Hs.
    rewrite Hs. reflexivity.
Qed.

Lemma SFeqb_true_finite (s1 s2 : bool) (m1 m2 : positive) (e1 e2 : Z) :
  SFeqb (S754_finite s1 m1 e1) (S754_finite s2 m2 e2) = true ->
  s1 = s2 /\ m1 = m2 /\ e1 = e2.
Proof.
  unfold SFeqb, SFcompare. change IntDef.Z.compare with Z.compare.
  change (PosDef.Pos.compare_cont Eq m1 m2) with (Pos.compare m1 m2).
  destruct s1, s2; try discriminate;
    destruct (Z.compare_spec e1 e2) as [->|?|?]; try discriminate;
    destruct (Pos.compare_spec m1 m2) as [->|?|?]; try discriminate; auto.
Qed.

Lemma SFeqb_true_exact (f g : spec_float) (x y : Z) :
  SFexact f x -> SFexact g y -> SFeqb f g = true -> x = y.
Proof.
  intros Hf Hg.
  destruct f as [sf| | |sf mf ef], g as [sg| | |sg mg eg]; cbn in Hf, Hg; try contradiction.
  - intros _. lia.
  - unfold SFeqb, SFcompare. destruct sg; discriminate.
  - unfold SFeqb, SFcompare. destruct sf; discriminate.
  - intros H. apply SFeqb_true_finite in H as (-> & -> & ->).
    destruct (0 <=? eg) eqn:E; [by rewrite Hf, Hg|].
    apply Z.leb_gt in E. rewrite <- Hg in Hf.
    apply Z.mul_reg_r in Hf; [exact Hf|].
    apply Z.pow_nonzero; lia.
Qed.

Lemma SFeqb_refl_exact (f : spec_float) (x : Z) : SFexact f x -> SFeqb f f = true.
Proof.
  destruct f; cbn; try contradiction; intros _; [reflexivity|apply SFeqb_finite_refl].
Qed.

Lemma SFeqb_float64_of_Z (x y : Z) :
  Z.abs x <= 2 ^ 53 -> Z.abs y <= 2 ^ 53 ->
  SFeqb (float64_of_Z x) (float64_of_Z y) = (x =? y).
Proof.
  intros Hx Hy. apply float64_of_Z_exact in Hx, Hy.
  destruct (Z.eqb_spec x y) as [->|Hne].
  - eapply SFeqb_refl_exact, Hy.
  - destruct (SFeqb _ _) eqn:E; [|reflexivity].
    exfalso. apply Hne. eapply SFeqb_true_exact; eauto.
Qed.

(** X14. On a member of type [int], [int8], [int32] or [int64], and on a
    [float64] member, the comparison under [case float64] is exact for the
    integers of magnitude up to 2^53: the filter value [float64(x)] matches
    the member [y] exactly when [x = y]. *)
Theorem numeric_filter_is_exact_on_listed_types (t : IntType) (x y : Z) :
  t <> int16 -> Z.abs x <= 2 ^ 53 -> Z.abs y <= 2 ^ 53 ->
  filterMatch (AFloat (float64_of_Z x)) (Some (VInt t y)) = Ok (x =? y)
  /\ filterMatch (AFloat (float64_of_Z x)) (Some (VFloat64 (float64_of_Z y))) = Ok (x =? y).
Proof.
  intros Ht Hx Hy. cbn [filterMatch Interface rbind numericMatch]. split.
  - f_equal. destruct t; try congruence; by apply SFeqb_float64_of_Z.
  - f_equal. by apply SFeqb_float64_of_Z.
Qed.

Lemma find_filter_head {A} (p : A -> bool) (l : list A) (x : A) (rest : list A) :
  filter p l = x :: rest -> find p l = Some x.
Proof.
  induction l as [|a l IH]; [discriminate|]. cbn [find]. rewrite filter_cons.
  destruct (decide (p a)) as [Hp|Hp].
  - intros [= -> _]. destruct (p x); [reflexivity|by destruct Hp].
  - intros H. destruct (p a); [by destruct Hp|]. exact (IH H).
Qed.

Lemma sameNumber_exact (f : spec_float) (x : Z) :
  SFexact f x ->
  exists a, numberOfFloat f = Some a /\ forall y, sameNumber a (y, 0) = (x =? y).
Proof.
  destruct f as [s| | |s m e]; cbn [SFexact numberOfFloat]; try contradiction.
  - intros ->. eexists. split; [reflexivity|]. intros y. unfold sameNumber. cbn.
    destruct y; reflexivity.
  - intros H. eexists. split; [reflexivity|]. intros y. unfold sameNumber. cbn [fst snd].
    destruct (0 <=? e) eqn:E.
    + apply Z.leb_le in E. rewrite Z.min_r by lia.
      replace (cond_Zopp s (Z.pos m) * 2 ^ (e - 0)) with x
        by (rewrite H, Z.sub_0_r; destruct s; cbn [cond_Zopp]; lia).
      replace (y * 2 ^ (0 - 0)) with y by (cbn; lia). reflexivity.
    + apply Z.leb_gt in E. rewrite Z.min_l by lia.
      replace (cond_Zopp s (Z.pos m) * 2 ^ (e - e)) with (x * 2 ^ (- e))
        by (rewrite H, Z.sub_diag; change (2 ^ 0) with 1; lia).
      replace (0 - e) with (- e) by lia.
      assert (0 < 2 ^ (- e)) by (apply Z.pow_pos_nonneg; lia).
      destruct (Z.eqb_spec x y) as [->|Hne]; [apply Z.eqb_refl|].
      apply Z.eqb_neq. nia.
Qed.

Lemma filterMatch_as_specified (filterValue : ArgValue) (v : Value) :
  comparedAsSpecified filterValue v ->
  filterMatch filterValue (Some v) = Ok (specEquals filterValue v).
Proof.
  intros [(x & y & -> & ->)|[(x & y & -> & ->)|(x & t & y & -> & -> & Ht & Hx & Hy)]];
    [reflexivity|reflexivity|].
  cbn [filterMatch Interface rbind]. f_equal.
  transitivity (x =? y).
  - unfold numericMatch. destruct t; try congruence; by apply SFeqb_float64_of_Z.
  - unfold specEquals. cbn [numberOfArg numberOf].
    destruct (sameNumber_exact _ _ (float64_of_Z_exact x Hx)) as (a & -> & Ha).
    symmetry. apply Ha.
Qed.

Lemma filterApplies_member (filter : list (string * ArgValue)) (element : Value)
    (member : string * ArgValue) :
  filterApplies filter element -> member ∈ filter ->
  memberCompares element member = Ok (specMemberEquals element member).
Proof.
  intros (pkg & name & fields & -> & H) Hin.
  destruct (H member Hin) as (f & Hf & Hc).
  unfold memberCompares, sameNamedMember, specMemberEquals, memberNamed, FieldByNameFunc.
  unfold membersNamed in Hf.
  rewrite (find_filter_head _ _ _ _ Hf).
  rewrite Hf. cbn [rbind fmap option_fmap option_map].
  exact (filterMatch_as_specified _ _ Hc).
Qed.

Lemma filterApplies_comparable (filter : list (string * ArgValue)) (element : Value) :
  filterApplies filter element ->
  comparable filter element = true
  /\ matchesSome filter element = existsb (specMemberEquals element) filter.
Proof.
  intros Ha.
  assert (Hm : forall member, member ∈ filter ->
            memberCompares element member = Ok (specMemberEquals element member))
    by (intros member; apply filterApplies_member; exact Ha).
  clear Ha. unfold comparable, matchesSome.
  induction filter as [|member filter IH]; [done|].
  cbn [forallb existsb]. unfold memberEquals at 1.
  rewrite (Hm member) by left.
  destruct IH as [-> ->]; [intros m Hin; apply Hm; by right|done].
Qed.

Lemma find_ext_Forall {A} (p q : A -> bool) (l : list A) :
  Forall (fun x => p x = q x) l -> find p l = find q l.
Proof.
  induction 1 as [|x l Hx _ IH]; [reflexivity|]. cbn [find]. by rewrite Hx, IH.
Qed.

(** X24. On a slice of records in which every member of the filter names
    exactly one member of every element, and every comparison is of two
    strings, of two booleans, or of the float64 of an integer with a member
    of type [int], [int8], [int32] or [int64] (magnitudes up to 2^53), the
    closure returns what the specification asks for: the first element for
    which some member of the filter equals the same-named member, alone, or
    the empty collection; whatever the order in which the filter is
    visited. *)
Theorem where_agrees_with_the_specification
    (structFieldName : string) (src : option Value) (args : gmap string Arg)
    (elems : list Value) (filter visited : list (string * ArgValue)) :
  FieldByName src structFieldName = Ok (Some (VSlice elems)) ->
  args !! "where" = Some (AObject visited) ->
  Permutation filter visited ->
  Forall (filterApplies filter) elems ->
  Resolve Call structFieldName reflect.Slice {| Source := src; ArgsOf := args |}
  = Ok (Some (VSlice (specFirstMatch filter elems)), None).
Proof.
  intros Hr Hw HP Ha. unfold Resolve. cbn [Source ArgsOf].
  rewrite Hr. cbn [rbind Elems]. rewrite Hw.
  assert (Hc : forallb (comparable filter) elems = true).
  { apply forallb_forall. intros element Hin.
    rewrite Forall_forall in Ha. apply list_elem_of_In in Hin.
    exact (proj1 (filterApplies_comparable filter element (Ha element Hin))). }
  pose proof (whereLoop_firstMatch filter visited [] elems HP Hc) as Hscan.
  change (Z.of_nat (length [])) with 0 in Hscan. cbn [app] in Hscan.
  rewrite Hscan. cbn [rbind]. do 3 f_equal.
  unfold firstMatch, specFirstMatch.
  rewrite (find_ext_Forall (matchesSome filter)
             (fun element => existsb (specMemberEquals element) filter) elems); [reflexivity|].
  eapply Forall_impl; [exact Ha|].
  intros element He. exact (proj2 (filterApplies_comparable filter element He)).
Qed.

Lemma Slice_Ok (r s : list Value) (i j : Z) :
  Slice r i j = Ok s ->
  0 <= i <= j /\ j <= Z.of_nat (length r)
  /\ s = take (length s) (drop (Z.to_nat i) r)
  /\ Z.of_nat (length s) = j - i.
Proof.
  unfold Slice. destruct (_ && _)%bool eqn:E; [|discriminate].
  apply andb_true_iff in E as [E E3]. apply andb_true_iff in E as [E1 E2].
  apply Z.leb_le in E1, E2, E3. intros [= <-].
  assert (Hlen : Z.of_nat (length (take (Z.to_nat (j - i)) (drop (Z.to_nat i) r))) = j - i).
  { rewrite length_take, length_drop. lia. }
  repeat split; try lia.
  rewrite <- (Nat2Z.id (length _)), Hlen. reflexivity.
Qed.

Lemma Slice_negative (r : list Value) (i j : Z) :
  i < 0 \/ j < i -> exists msg, Slice r i j = Panic msg.
Proof.
  intros H. unfold Slice.
  destruct (0 <=? i) eqn:E1; [|cbn; eauto].
  destruct (i <=? j) eqn:E2; [|cbn; eauto].
  apply Z.leb_le in E1, E2. lia.
Qed.

(** X15. Without 'where', what the closure returns for a slice is a run of
    consecutive elements of it, with no error; with a 'limit' in the range
    of [int] it has at most 'limit' elements, and with 'skip' alone it is
    never empty. *)
Theorem window_is_a_bounded_segment
    (structFieldName : string) (src : option Value) (args : gmap string Arg)
    (elems : list Value) (v : option Value) (e : option error) :
  FieldByName src structFieldName = Ok (Some (VSlice elems)) ->
  args !! "where" = None ->
  Resolve Call structFieldName reflect.Slice {| Source := src; ArgsOf := args |}
    = Ok (v, e) ->
  e = None
  /\ exists s i, v = Some (VSlice s)
       /\ 0 <= i /\ s = take (length s) (drop (Z.to_nat i) elems)
       /\ (forall l, args !! "limit" = Some (AScalar (AInt l)) ->
             - 2 ^ 63 <= l < 2 ^ 63 -> Z.of_nat (length s) <= l)
       /\ (args !! "limit" = None -> is_Some (args !! "skip") -> s <> []).
Proof.
  intros Hr Hw. unfold Resolve. cbn [Source ArgsOf]. rewrite Hr. cbn [rbind Elems].
  rewrite Hw. destruct (skipLimit args elems) as [s|] eqn:E; [|discriminate].
  cbn [rbind]. intros [= <- <-]. split; [reflexivity|].
  exists s. unfold skipLimit in E.
  destruct (args !! "skip") as [skip|] eqn:Hs.
  - destruct (asInt skip) as [sk|]; [|discriminate]. cbn [rbind] in E.
    destruct (args !! "limit") as [limit|] eqn:Hl.
    + destruct (asInt limit) as [l|] eqn:El; [|discriminate]. cbn [rbind] in E.
      rewrite !Min_min in E. apply Slice_Ok in E as (Hi & Hj & Hseg & Hlen).
      exists (Z.min sk (Z.of_nat (length elems) - 1)).
      split; [reflexivity|]. split; [lia|]. split; [exact Hseg|].
      split; [|discriminate]. intros l' [= ->] Hrange. cbn in El. injection El as <-.
      rewrite Hlen. unfold wrap64 in *.
      set (i := Z.min sk (Z.of_nat (length elems) - 1)) in *.
      assert (H2 : 2 ^ 64 = 2 * 2 ^ 63) by reflexivity.
      assert (H0 : 0 < 2 ^ 63) by reflexivity.
      assert (Hm := Z.mod_pos_bound (i + l' + 2 ^ 63) (2 ^ 64) eq_refl).
      destruct (Z_lt_ge_dec (i + l') (2 ^ 63)).
      * assert (H64 : (i + l' + 2 ^ 63) mod 2 ^ 64 = i + l' + 2 ^ 63).
        { apply Z.mod_small. lia. }
        rewrite H64 in *. lia.
      * exfalso.
        assert (H64 : (i + l' + 2 ^ 63) mod 2 ^ 64 = i + l' + 2 ^ 63 - 2 ^ 64).
        { symmetry. apply Z.mod_unique_pos with (q := 1); lia. }
        rewrite H64 in Hi. lia.
    + cbn [rbind] in E. rewrite Min_min in E. apply Slice_Ok in E as (Hi & Hj & Hseg & Hlen).
      exists (Z.min sk (Z.of_nat (length elems) - 1)).
      split; [reflexivity|]. split; [lia|]. split; [exact Hseg|].
      split; [discriminate|]. intros _ _ Hnil.
      rewrite Hnil in Hlen. cbn in Hlen. lia.
  - cbn [rbind] in E. destruct (args !! "limit") as [limit|] eqn:Hl.
    + destruct (asInt limit) as [l|] eqn:El; [|discriminate]. cbn [rbind] in E.
      rewrite Min_min in E. apply Slice_Ok in E as (Hi & Hj & Hseg & Hlen).
      exists 0.
      split; [reflexivity|]. split; [lia|]. split; [exact Hseg|].
      split; [|discriminate]. intros l' [= ->] Hrange. cbn in El. injection El as <-.
      rewrite Hlen. rewrite wrap64_small by lia. lia.
    + cbn [rbind] in E. apply Slice_Ok in E as (Hi & Hj & Hseg & Hlen).
      exists 0.
      split; [reflexivity|]. split; [lia|]. split; [exact Hseg|].
      split; [discriminate|]. intros _ [? ?]. discriminate.
Qed.




(** X19. Nothing checks the range of 'skip' and 'limit': a 'skip' on the
    empty collection or a negative 'skip' (whatever 'limit' is), and a
    negative 'limit' without 'skip', make [r.Slice] panic. *)
Theorem window_out_of_range_panics
    (structFieldName : string) (k : reflect.Kind) (src : option Value)
    (args : gmap string Arg) (elems : list Value) :
  collectionKind k = true ->
  FieldByName src structFieldName = Ok (Some (VSlice elems)) ->
  args !! "where" = None ->
  (exists skip, args !! "skip" = Some (AScalar (AInt skip))
                /\ (skip < 0 \/ elems = []))
  \/ (exists limit, args !! "skip" = None
                    /\ args !! "limit" = Some (AScalar (AInt limit))
                    /\ - 2 ^ 63 <= limit < 0) ->
  exists msg,
    Resolve Call structFieldName k {| Source := src; ArgsOf := args |} = Panic msg.
Proof.
  intros Hk Hr Hw Hargs.
  assert (Hwin : exists msg, skipLimit args elems = Panic msg).
  { unfold skipLimit. destruct Hargs as [(skip & -> & Hskip)|(limit & -> & -> & Hl)].
    - cbn [asInt rbind]. rewrite Min_min.
      assert (Hi : Z.min skip (Z.of_nat (length elems) - 1) < 0).
      { destruct Hskip as [?| ->]; [lia|]. cbn [length]. lia. }
      destruct (args !! "limit") as [limit|].
      + destruct (asInt limit) as [l|msg]; cbn [rbind]; [|eauto].
        apply Slice_negative. by left.
      + cbn [rbind]. apply Slice_negative. by left.
    - cbn [asInt rbind]. rewrite Min_min. apply Slice_negative. right.
      rewrite wrap64_small by lia. lia. }
  destruct Hwin as [msg Hwin]. exists msg.
  unfold Resolve. cbn [Source ArgsOf]. rewrite Hr. cbn [rbind].
  destruct k; try discriminate; cbn [Elems rbind]; rewrite Hw, Hwin; reflexivity.
Qed.

(** A member of array kind: [r.Slice] panics on an array that is not
    addressable, on every path of [case reflect.Slice, reflect.Array]. *)
Lemma array_member_panics (structFieldName : string) (src : option Value)
    (args : gmap string Arg) :
  FieldByName src structFieldName = Ok (Some (VOpaque reflect.Array)) ->
  exists msg,
    Resolve Call structFieldName reflect.Array {| Source := src; ArgsOf := args |}
    = Panic msg.
Proof.
  intros Hr. unfold Resolve. cbn [Source ArgsOf]. rewrite Hr. cbn. eauto.
Qed.

(** X20. The closure of a member that is not of func kind returns a value
    and no error, or no value and the error 'unknown type'; it never returns
    both, and no other error. *)
Theorem only_computed_members_return_other_errors
    (structFieldName : string) (k : reflect.Kind) (p : ResolveParams)
    (v : option Value) (e : option error) :
  k <> reflect.Func ->
  Resolve Call structFieldName k p = Ok (v, e) ->
  (is_Some v /\ e = None) \/ (v = None /\ e = Some "unknown type").
Proof.
  intros Hk. unfold Resolve.
  destruct (FieldByName (Source p) structFieldName) as [r|]; [|discriminate].
  cbn [rbind].
  assert (Hcoll :
    (let* elems := Elems r in
     match ArgsOf p !! "where" with
     | Some filterOne =>
         let* s := whereLoop filterOne elems 0 elems in Ok (Some (VSlice s), None)
     | None => let* s := skipLimit (ArgsOf p) elems in Ok (Some (VSlice s), None)
     end) = Ok (v, e) -> (is_Some v /\ e = None) \/ (v = None /\ e = Some "unknown type")).
  { destruct (Elems r) as [elems|]; [|discriminate]. cbn [rbind].
    destruct (ArgsOf p !! "where").
    - destruct (whereLoop _ _ _ _); [|discriminate]. intros [= <- <-]. left. eauto.
    - destruct (skipLimit _ _); [|discriminate]. intros [= <- <-]. left. eauto. }
  destruct k; try congruence; try exact Hcoll;
    (destruct r as [[| | t ? | | | | | | | | |]|]; try destruct t;
     intros [= <- <-]; eauto).
Qed.

(** X21. The switch of [getBasicOutput] and the switch on [r.Kind()] of the
    closure agree on the values of the basic kinds: when the declared type
    is a scalar, the closure returns a value that serializes as that scalar
    (a string, a float64 or a bool) and no error; when [getBasicOutput]
    gives nil (a [uintptr]) the closure returns the error 'unknown type'. *)
Theorem declared_scalar_agrees_with_resolved_value
    (structFieldName typeName : string) (src : option Value)
    (args : gmap string Arg) (v : Value) :
  FieldByName src structFieldName = Ok (Some v) ->
  basicValue v = true ->
  match getBasicOutput (reflect.TPlain typeName (ValueKind (Some v))) with
  | Some (graphql.OScalar s) =>
      exists w, Resolve Call structFieldName (ValueKind (Some v))
                  {| Source := src; ArgsOf := args |} = Ok (Some w, None)
                /\ scalarOfValue w = Some s
  | _ =>
      Resolve Call structFieldName (ValueKind (Some v))
        {| Source := src; ArgsOf := args |} = Ok (None, Some "unknown type")
  end.
Proof.
  intros Hr Hb. unfold Resolve. cbn [Source ArgsOf]. rewrite Hr. cbn [rbind].
  destruct v as [| t ? | t ? | | | | | | | | |]; try discriminate; try destruct t;
    cbn; eauto.
Qed.

End MoreResolve.

(** ** The entry point and the handlers *)

Section MoreTopLevel.

Variable D : Type.
Variable Schema : Type.
Variable NewSchema : graphql.SchemaConfig -> Schema * option error.
Variable Do : Schema -> string -> graphql.Result D.
Variable MarshalIndent :
  option (graphql.Result D) -> string -> string -> string * option error.

Lemma query_outcome (rootField : string) (T : reflect.rtype)
    (o : option Value) (query : string) :
  wellFormed T = true ->
  (exists b, QueryStructViaGraphql NewSchema Do MarshalIndent rootField T o query
             = Ok (Some b, None))
  \/ (exists e, QueryStructViaGraphql NewSchema Do MarshalIndent rootField T o query
                = Ok (None, Some e)).
Proof.
  intros Hwf. unfold QueryStructViaGraphql.
  destruct (create_total T Hwf emptyState) as (typ & fields & st & ->). cbn [rbind].
  destruct (NewSchema _) as [schema [e|]]; [eauto|].
  destruct (executeQuery Do query schema) as [r [e|]]; [eauto|].
  destruct (MarshalIndent r "" "  ") as [b [e|]]; eauto.
Qed.


(** X23. An error of [graphql.NewSchema] is returned as it is, with no
    bytes: the query is not executed and nothing is serialized, so that the
    result is the same for every executor, serializer and query. *)
Theorem schema_error_stops_the_query
    (rootField : string) (T : reflect.rtype) (o : option Value)
    (typ : option graphql.Output) (fields : graphql.Fields) (st : BuildState)
    (schema : Schema) (e : error) :
  createGraphQlFieldHierarchy T emptyState = Ok (typ, fields, st) ->
  NewSchema (rootSchemaConfig rootField typ o st) = (schema, Some e) ->
  forall (Do' : Schema -> string -> graphql.Result D)
         (MarshalIndent' : option (graphql.Result D) -> string -> string
                           -> string * option error) (query : string),
    QueryStructViaGraphql NewSchema Do' MarshalIndent' rootField T o query
    = Ok (None, Some e).
Proof.
  intros Hc Hs Do' MarshalIndent' query. unfold QueryStructViaGraphql.
  rewrite Hc. cbn [rbind]. rewrite Hs. reflexivity.
Qed.

(** X25. The two handlers do not panic, and each answers in one of two ways:
    status 200 with exactly the bytes that [QueryStructViaGraphql] returns
    for the bound query on the sample data, or status 400 with the body
    [{error: Invalid request body}], the same for a body that does not bind
    and for a query that fails. *)
Theorem handlers_answer_200_or_400 (Context : Type)
    (Bind : Context -> string * option error) (c : Context) :
  let invalid :=
    echo.JSON 400 {[ "error" := "Invalid request body" ]} in
  ((exists b,
      Bind c = (fst (Bind c), None)
      /\ QueryStructViaGraphql NewSchema Do MarshalIndent "dogs"
           (reflect.TList "" false Dog) (Some (VSlice dogs)) (fst (Bind c))
         = Ok (Some b, None)
      /\ QueryDogs Bind NewSchema Do MarshalIndent c = Ok (echo.String 200 b))
   \/ QueryDogs Bind NewSchema Do MarshalIndent c = Ok invalid)
  /\ ((exists b,
         Bind c = (fst (Bind c), None)
         /\ QueryStructViaGraphql NewSchema Do MarshalIndent "cats"
              (reflect.TList "" false Cat) (Some (VSlice cats)) (fst (Bind c))
            = Ok (Some b, None)
         /\ QueryCats Bind NewSchema Do MarshalIndent c = Ok (echo.String 200 b))
      \/ QueryCats Bind NewSchema Do MarshalIndent c = Ok invalid).
Proof.
  intros invalid. unfold QueryDogs, QueryCats.
  destruct (Bind c) as [post [e|]]; [split; right; reflexivity|].
  cbn [fst]. split.
  - destruct (query_outcome "dogs" (reflect.TList "" false Dog)
                (Some (VSlice dogs)) post eq_refl) as [[b Hb]|[e He]].
    + left. exists b. rewrite Hb. cbn [rbind]. auto.
    + right. rewrite He. reflexivity.
  - destruct (query_outcome "cats" (reflect.TList "" false Cat)
                (Some (VSlice cats)) post eq_refl) as [[b Hb]|[e He]].
    + left. exists b. rewrite Hb. cbn [rbind]. auto.
    + right. rewrite He. reflexivity.
Qed.

End MoreTopLevel.

(** ** The further properties at the example inputs *)

Lemma where_never_returns_more_than_one_witness :
  @None error = None
  /\ (Some (VSlice [cat "Bello" 2 "Black"]) = Some (VSlice [])
      \/ exists element,
           Some (VSlice [cat "Bello" 2 "Black"]) = Some (VSlice [element])
           /\ element ∈ coloured).
Proof.
  exact (where_never_returns_more_than_one noCall "Cats" shelter
           {[ "where" := AObject [("color", AString "Black")] ]} coloured
           (AObject [("color", AString "Black")])
           (Some (VSlice [cat "Bello" 2 "Black"])) None
           eq_refl eq_refl eq_refl).
Defined.

Lemma numeric_filter_is_exact_on_listed_types_witness :
  filterMatch (AFloat (float64_of_Z 2)) (Some (VInt int32 3)) = Ok false
  /\ filterMatch (AFloat (float64_of_Z 2)) (Some (VFloat64 (float64_of_Z 3))) = Ok false.
Proof.
  refine (numeric_filter_is_exact_on_listed_types int32 2 3 _ _ _);
    [discriminate| |]; vm_compute; discriminate.
Defined.

Lemma window_is_a_bounded_segment_witness :
  @None error = None
  /\ exists s i, Some (VSlice [VString "b"; VString "c"]) = Some (VSlice s)
       /\ 0 <= i /\ s = take (length s) (drop (Z.to_nat i) tags)
       /\ (forall l,
             ({[ "skip" := AScalar (AInt 1); "limit" := AScalar (AInt 2) ]}
                : gmap string Arg) !! "limit" = Some (AScalar (AInt l)) ->
             - 2 ^ 63 <= l < 2 ^ 63 -> Z.of_nat (length s) <= l)
       /\ (({[ "skip" := AScalar (AInt 1); "limit" := AScalar (AInt 2) ]}
              : gmap string Arg) !! "limit" = None ->
           is_Some (({[ "skip" := AScalar (AInt 1); "limit" := AScalar (AInt 2) ]}
                       : gmap string Arg) !! "skip") ->
           s <> []).
Proof.
  exact (window_is_a_bounded_segment noCall "Tags" shelter
           {[ "skip" := AScalar (AInt 1); "limit" := AScalar (AInt 2) ]} tags
           (Some (VSlice [VString "b"; VString "c"])) None
           eq_refl eq_refl eq_refl).
Defined.




Lemma window_out_of_range_panics_witness :
  exists msg,
    Resolve noCall "Empty" reflect.Slice
      {| Source := shelter; ArgsOf := {[ "skip" := AScalar (AInt 0) ]} |} = Panic msg.
Proof.
  refine (window_out_of_range_panics noCall "Empty" reflect.Slice shelter
            {[ "skip" := AScalar (AInt 0) ]} [] eq_refl eq_refl eq_refl _).
  left. exists 0. split; [reflexivity|]. right. reflexivity.
Defined.

Lemma only_computed_members_return_other_errors_witness :
  (is_Some (@None Value) /\ Some "unknown type" = None)
  \/ (@None Value = None /\ Some "unknown type" = Some "unknown type").
Proof.
  refine (only_computed_members_return_other_errors noCall "Likes" reflect.Chan
            {| Source := shelter; ArgsOf := ∅ |} None (Some "unknown type") _ eq_refl).
  discriminate.
Defined.

Lemma declared_scalar_agrees_with_resolved_value_witness :
  exists w,
    Resolve noCall "Count" reflect.Uint64 {| Source := shelter; ArgsOf := ∅ |}
    = Ok (Some w, None)
    /\ scalarOfValue w = Some graphql.Float.
Proof.
  exact (declared_scalar_agrees_with_resolved_value noCall "Count" "uint64" shelter ∅
           (VUint uint64 (2 ^ 53 + 1)) eq_refl eq_refl).
Defined.


Lemma schema_error_stops_the_query_witness :
  QueryStructViaGraphql rejectSchema noErrors printIndent "cats"
    (reflect.TList "" false Cat) (Some (VSlice coloured)) "{cats{name}}"
  = Ok (None, Some "Schema must contain uniquely named types").
Proof.
  destruct (create_total (reflect.TList "" false Cat) eq_refl emptyState)
    as (typ & fields & st & E).
  exact (schema_error_stops_the_query unit graphql.SchemaConfig rejectSchema "cats"
           (reflect.TList "" false Cat) (Some (VSlice coloured)) typ fields st _
           "Schema must contain uniquely named types" E eq_refl
           noErrors printIndent "{cats{name}}").
Defined.


Lemma filter_on_unknown_member_panics_witness :
  (exists msg,
     Resolve noCall "Cats" reflect.Slice
       {| Source := shelter;
          ArgsOf := {[ "where" := AObject [("colour", AString "Black");
                                           ("color", AString "Black")] ]} |}
     = Panic msg)
  /\ Resolve noCall "Cats" reflect.Slice
       {| Source := shelter;
          ArgsOf := {[ "where" := AObject [("color", AString "Black");
                                           ("colour", AString "Black")] ]} |}
     = Ok (Some (VSlice [cat "Bello" 2 "Black"]), None).
Proof.
  split.
  - exact (proj1 (filter_on_unknown_member_panics noCall "Cats" reflect.Slice shelter
                    {[ "where" := AObject [("colour", AString "Black");
                                           ("color", AString "Black")] ]}
                    "main" "Cat"
                    [("Name", VString "Bello"); ("Age", VInt int 2);
                     ("Color", VString "Black")]
                    [cat "Momo" 3 "White"; cat "Kuro" 1 "Black"]
                    "colour" (AString "Black") [] [("color", AString "Black")]
                    eq_refl eq_refl eq_refl eq_refl) eq_refl).
  - exact (proj2 (filter_on_unknown_member_panics noCall "Cats" reflect.Slice shelter
                    {[ "where" := AObject [("color", AString "Black");
                                           ("colour", AString "Black")] ]}
                    "main" "Cat"
                    [("Name", VString "Bello"); ("Age", VInt int 2);
                     ("Color", VString "Black")]
                    [cat "Momo" 3 "White"; cat "Kuro" 1 "Black"]
                    "colour" (AString "Black") [("color", AString "Black")] []
                    eq_refl eq_refl eq_refl eq_refl) eq_refl eq_refl).
Defined.

Lemma where_agrees_with_the_specification_witness :
  Resolve noCall "Cats" reflect.Slice
    {| Source := shelter;
       ArgsOf := {[ "where" := AObject [("age", AFloat (float64_of_Z 3));
                                        ("color", AString "Black")] ]} |}
  = Ok (Some (VSlice [cat "Bello" 2 "Black"]), None).
Proof.
  refine (where_agrees_with_the_specification noCall "Cats" shelter
            {[ "where" := AObject [("age", AFloat (float64_of_Z 3));
                                   ("color", AString "Black")] ]} coloured
            [("color", AString "Black"); ("age", AFloat (float64_of_Z 3))]
            [("age", AFloat (float64_of_Z 3)); ("color", AString "Black")]
            eq_refl eq_refl (perm_swap _ _ _) _).
  assert (Hcat : forall name age color,
            Z.abs age <= 2 ^ 53 ->
            filterApplies [("color", AString "Black"); ("age", AFloat (float64_of_Z 3))]
              (cat name age color)).
  { intros name age color Hage. eexists _, _, _. split; [reflexivity|].
    intros member Hin.
    apply elem_of_cons in Hin as [->|Hin]; [|apply elem_of_cons in Hin as [->|Hin]].
    - eexists. split; [reflexivity|]. left. cbn. eauto.
    - eexists. split; [reflexivity|]. right. right.
      exists 3, int, age. cbn [snd]. repeat split; [discriminate| |exact Hage].
      vm_compute. discriminate.
    - by apply elem_of_nil in Hin. }
  repeat constructor; apply Hcat; vm_compute; discriminate.
Defined.

Lemma argument_synthesis_witness :
  memberStep createGraphQlFieldHierarchy ("Name", tString) ∅ emptyState
  = Ok ({[ "name" := {| graphql.FieldName := "Name";
                        graphql.FieldType := Some (graphql.OScalar graphql.String);
                        graphql.Args := ∅;
                        graphql.Resolve := graphql.MemberResolve "Name" reflect.String |} ]},
        emptyState)
  /\ memberStep createGraphQlFieldHierarchy ("Tags", reflect.TList "" false tString)
       ∅ emptyState
     = Ok ({[ "tags" :=
                {| graphql.FieldName := "Tags";
                   graphql.FieldType :=
                     Some (graphql.OList (Some (graphql.OScalar graphql.String)));
                   graphql.Args := <["limit" := intArg]> (<["skip" := intArg]> ∅);
                   graphql.Resolve := graphql.MemberResolve "Tags" reflect.Slice |} ]},
           emptyState)
  /\ exists ty subfields st1,
       createGraphQlFieldHierarchy (reflect.TList "" false Cat) emptyState
       = Ok (Some ty, subfields, st1)
       /\ memberStep createGraphQlFieldHierarchy ("Cats", reflect.TList "" false Cat)
            ∅ emptyState
          = Ok ({[ "cats" :=
                     {| graphql.FieldName := "Cats";
                        graphql.FieldType := Some ty;
                        graphql.Args :=
                          <["where" :=
                              default {| graphql.ArgType :=
                                           graphql.InObject "cats"
                                             (filterFields (reflect.VisibleFields Cat)) |}
                                      (filterMap st1 !! "Cats")]>
                            (subfieldArgs subfields);
                        graphql.Resolve := graphql.MemberResolve "Cats" reflect.Slice |} ]},
                withFilterMap st1
                  (<["Cats" :=
                       default {| graphql.ArgType :=
                                    graphql.InObject "cats"
                                      (filterFields (reflect.VisibleFields Cat)) |}
                               (filterMap st1 !! "Cats")]> (filterMap st1))).
Proof.
  split; [|split].
  - destruct (argument_synthesis "Name" tString (graphql.OScalar graphql.String)
                ∅ ∅ emptyState emptyState eq_refl) as (_ & H & _).
    exact (H ltac:(discriminate) ltac:(discriminate)).
  - destruct (argument_synthesis "Tags" (reflect.TList "" false tString)
                (graphql.OList (Some (graphql.OScalar graphql.String)))
                ∅ ∅ emptyState emptyState eq_refl) as (_ & _ & _ & _ & _ & _ & H).
    exact (proj2 (proj2 (proj2 (H "" "string" false reflect.String
                                  eq_refl eq_refl eq_refl eq_refl)))).
  - destruct (create_total Cat eq_refl emptyState) as (o & subfields & st1 & E).
    assert (El : createGraphQlFieldHierarchy (reflect.TList "" false Cat) emptyState
                 = Ok (Some (graphql.OList o), subfields, st1)).
    { rewrite create_unfold. cbn [reflect.Name is_typeTime]. rewrite E. reflexivity. }
    exists (graphql.OList o), subfields, st1. split; [exact El|].
    destruct (argument_synthesis "Cats" (reflect.TList "" false Cat) (graphql.OList o)
                ∅ subfields emptyState st1 El) as (_ & _ & H & _).
    exact (H "" false Cat eq_refl eq_refl).
Defined.

Lemma self_reference_is_built_at_every_level_witness :
  exists o fields st',
    createGraphQlFieldHierarchy (unrolledNode 3) emptyState = Ok (o, fields, st')
    /\ registeredNames st' = ["Node"; "Node"; "Node"; "Node"]
    /\ (forall k, k <> "Node" -> typesMap st' !! k = typesMap emptyState !! k).
Proof.
  exact (self_reference_is_built_at_every_level 3 emptyState eq_refl eq_refl).
Defined.
